(* ===== verification/_CoqProject ===== *)
-Q . S2P
Prelude.v
PyStr.v
PyValue.v
RemoveAds.v
Typing.v
Tokens.v
AppState.v
Handlers.v
AppProps.v
Scenarios.v
EndToEnd.v
Aborts.v
