(* ===== verification/Prelude.v ===== *)
(** * A verification development of transcribe_app (src/transcribe_app_gui.py)

    ** The program

    [src/transcribe_app_gui.py] is a PyQt6 desktop application of 117
    lines.  It has two parts that interact through one call:

    - [remove_ads] (lines 8-22), a pure function: it walks the
      ["segments"] of the dictionary returned by Whisper's
      [model.transcribe], lower-cases the ["text"] of every segment, drops
      the segments whose lower-cased text contains one of six fixed
      advertisement phrases ([ad_keywords]) as a substring, and joins the
      lower-cased survivors with single spaces;
    - [TranscriptionApp] (lines 24-112), a [QWidget] whose state is its
      widgets (a label, three buttons with an enabled flag, a progress
      bar, a read-only text area, a save button), the selected
      [audio_file] and the flag [transcription_active].  Its slots
      [openFileDialog], [transcribeAudio], [cancelTranscription] and
      [saveTranscript] are run by Qt's event loop when a button is clicked.
      [transcribeAudio] and [cancelTranscription] call
      [QApplication.processEvents()], which dispatches the pending clicks
      from inside the running slot: the slots are re-entrant.
      [transcribeAudio] blocks in [model.transcribe] (the Whisper model, an
      external collaborator) and then calls [remove_ads] on its result.

    ** Files, in dependency order

    - [Prelude] (this file): the [outcome] error monad with its notation
      in [outcome_scope], its bind lemmas, the [transcribe] hint database
      and the tactic [outcome_inv].
    - [PyStr]: the Python string operations the program uses, on strings
      of code points U+0000..U+00FF ([String.string]): [str.lower]
      ([py_lower]), the substring test [kw in s] ([py_contains]),
      [" ".join] ([py_join]) and [os.path.basename] ([basename]); with the
      specification of [py_contains] as substring containment.
    - [PyValue]: the Python values Whisper returns ([pyval]: None, bool,
      int, float, str, list, dict with string keys in insertion order), the
      exceptions the code can raise ([py_exc]), subscription [v[k]]
      ([py_getitem]), iteration ([py_iter]) and the method call [.lower()]
      on a value ([py_call_lower]), with CPython's messages, which name
      the type of the value ([py_type_name]).
    - [RemoveAds]: [remove_ads] as written (loop with an accumulator and
      [append]), its abstract specification ([remove_ads_spec] on the list
      of segment texts), the refinement theorem between them, the error
      behaviour, and the properties of section 8 of the spec.
    - [Typing]: a small language of Python types ([pytype]) with a
      decidable typing judgment ([has_type]), the type of Whisper's result
      ([whisper_result_type]), and the domain and type safety of
      [remove_ads].
    - [Tokens]: the word tokens of a string ([words], Python's
      [str.split()]) and the tokens of [remove_ads]'s output.
    - [AppState]: the widget state ([app]), the plain text Qt returns for
      the text area ([toPlainText], [qt_plain_text]: U+00A0 as a space,
      CR and CR LF as LF), the user input ([event]), the world the event
      loop runs in ([world]: the app, the pending event queue, the batches
      of clicks still to come, the file system as a [gmap], the log of
      calls of the model), [__init__]/[initUI] ([init_app]), decidable
      equality of labels and clicks, the speech model interface
      ([SpeechModel], a class) and the interface of the operating system
      the save slot writes through ([FileSystem]: the answer of [open] and
      of [write] for a path).
    - [Handlers]: the four slots, each parametrised by the
      [processEvents] it calls (open recursion), and [process_events] /
      [exec] which tie the knot with fuel; [saveTranscript] returns an
      outcome, since [open] and [write] can raise.
    - [AppProps]: termination of the event loop with enough fuel, the
      invariants of reachable states ([app_inv],
      [idle]) and the end-to-end safety of saved files; a concrete model
      [demo_model] for the witnesses.
    - [Scenarios]: the equations of the slots on each branch, the tactic
      [run_slots] that evaluates the loop with them, and the scenarios of
      cancellation, re-entrancy and exceptions; the contracts of
      [openFileDialog] and [saveTranscript].
    - [EndToEnd]: whole runs of the program ([session]): the measure
      [call_budget] (model calls made plus Transcribe clicks still to
      dispatch), the tactic [run_session] which extends [run_slots] to
      [exec] and the select and save slots, and the theorems on complete
      runs.
    - [Aborts]: what a run that ends on an exception leaves on disk:
      [on_abort], the invariant of the world an exception carries, with its
      bind rule, and its proof through every slot.

    ** What the theorems show

    - [RemoveAds]: refinement of [remove_ads] to [remove_ads_spec] on
      well-formed results (C1); kept segments are exactly the keyword-free
      ones, in order (C2); errors: the first unreadable segment decides the
      exception, a missing "segments" raises KeyError (C10, C11);
      case-insensitivity, idempotence, lower-case output (C13-C15); two
      adjacent kept segments ending and starting with the halves of a
      keyword put that keyword in the output (C16, against section 8 of
      the spec); [is_ad] is substring containment of a keyword (C17); the
      output is bounded by the input texts plus one separator each (C21);
      the exceptions it can raise are exactly four kinds (C22).
    - [Typing]: [remove_ads] returns exactly on well-typed results and on
      dicts whose "segments" iterates to nothing, such as "" (C20).
    - [Tokens]: the word tokens of the output are exactly those of the
      kept, lower-cased segments, in order (C28, section 8 of the spec).
    - [AppProps]: [process_events] never runs out of fuel above [pending]
      (C5); [app_inv] is preserved through nested slots (C7), idleness is
      restored after every top-level dispatch (C8), and every saved file
      holds Qt's plain text of a filtered transcript of a model result
      (C6).
    - [Scenarios]: cancel clicks made during the model call are ignored
      (C3); a double click on Transcribe reports a cancellation nobody
      asked for and runs the model twice (C4); a cancel queued before line
      85 discards the result but not the model run (C9); exceptions abort
      with the UI still "Transcribing" (C12).
    - [Handlers]: [saveTranscript] and [openFileDialog] on every branch
      (C18, C19).
    - [EndToEnd]: with enough fuel every run aborts on an exception or
      delivers and dispatches every click (C23, liveness); the model runs
      at most once per Transcribe click (C24); select, transcribe and save
      write Qt's plain text of the filtered transcript to the chosen path
      (C25); when [write] fails in that session the application aborts and
      the file is left truncated to a proper prefix (C26); an all-ads
      transcript enables Save on an empty text area, and Save then does
      nothing (C29); a Select click queued behind Transcribe changes the
      file the model transcribes (C30).
    - [Aborts]: in every run that ends on an exception, every file holds
      a prefix of Qt's plain text of a filtered transcript (C27).

    ** Fuel

    [process_events fuel w] decrements its fuel at each level and each
    dispatched click; [pending w] counts the queued clicks, the clicks still
    to come and one per batch still to come.  Every dispatch removes one
    click and every model call consumes one batch, so the measure never
    grows, and fuel [pending w + 1] is enough ([process_events_terminates]);
    [exec] needs [pending w + 2].  Nothing else in the program loops.
    The round trip of [EndToEnd] takes 8 steps of fuel: [exec] and
    [process_events] each take one per level on its path through four
    batches.

    ** Not modelled

    The Whisper model itself (the class [SpeechModel]: any function from a
    path to a result or an exception; every theorem holds for all of
    them), the rendering of widgets, window geometry and layout (lines
    32-35 and the layout calls of 38-67), the modal event loop of
    [QFileDialog] (a dialog's answer is carried by the click that opened
    it), lower-casing of code points above U+00FF, and Windows paths in
    [os.path.basename] (the program is taken to run on a POSIX system,
    where the text-mode [open] of line 111 writes LF unchanged).  Qt's
    plain-text conversion is modelled for the code points of the model:
    beyond U+00FF it also maps U+2028 and U+2029 to LF, which the model
    cannot represent.  The operating system's answer to [open] and
    [write] ([FileSystem]) depends on the path and the text, not on what
    happened before: a disk that fills up during a session is a
    different instance.
*)

From stdpp Require Import base list.

(** ** The outcome monad: a computation that returns or raises *)

Inductive outcome (E A : Type) : Type :=
| Ret (a : A)
| Exc (e : E).
Arguments Ret {E A} a.
Arguments Exc {E A} e.

Definition obind {E A B} (m : outcome E A) (k : A -> outcome E B) : outcome E B :=
  match m with
  | Ret a => k a
  | Exc e => Exc e
  end.

Declare Scope outcome_scope.
Delimit Scope outcome_scope with outcome.
Notation "x <- m ;; k" := (obind m (fun x => k))
  (at level 100, m at next level, right associativity) : outcome_scope.
Notation "m ;;; k" := (obind m (fun _ => k))
  (at level 100, right associativity) : outcome_scope.

Create HintDb transcribe.
Create Rewrite HintDb transcribe_rw.

Section OutcomeLemmas.
Context {E A B : Type}.

Lemma obind_Ret_inv (m : outcome E A) (k : A -> outcome E B) b :
  obind m k = Ret b -> exists a, m = Ret a /\ k a = Ret b.
Proof. destruct m; simpl; eauto; discriminate. Qed.

Lemma obind_Exc_inv (m : outcome E A) (k : A -> outcome E B) e :
  obind m k = Exc e -> m = Exc e \/ exists a, m = Ret a /\ k a = Exc e.
Proof. destruct m; simpl; [right; eauto | left; congruence]. Qed.

Lemma obind_Ret (a : A) (k : A -> outcome E B) : obind (Ret a) k = k a.
Proof. reflexivity. Qed.

Lemma obind_Exc (e : E) (k : A -> outcome E B) : obind (Exc e) k = Exc e.
Proof. reflexivity. Qed.

Lemma obind_ext (m : outcome E A) (k k' : A -> outcome E B) :
  (forall a, m = Ret a -> k a = k' a) -> obind m k = obind m k'.
Proof. destruct m; simpl; auto. Qed.
End OutcomeLemmas.

#[export] Hint Rewrite @obind_Ret @obind_Exc : transcribe_rw.

(** [outcome_inv] splits every hypothesis [obind m k = Ret b] into the
    result of [m] and of its continuation. *)
Ltac outcome_inv :=
  repeat match goal with
  | H : obind _ _ = Ret _ |- _ =>
      let a := fresh "a" in let Ha := fresh "Hm" in
      apply obind_Ret_inv in H as (a & Ha & H)
  | H : Ret _ = Ret _ |- _ => injection H as H
  | H : Exc _ = Ret _ |- _ => discriminate H
  | H : Ret _ = Exc _ |- _ => discriminate H
  end.

