(* ===== verification/PyStr.v ===== *)
(** * PyStr: the Python string operations used by transcribe_app_gui.py

    A Python [str] is a sequence of Unicode code points; here a string is a
    [String.string] whose characters are read as the code points
    U+0000..U+00FF (ASCII and Latin-1).  The file models the operations
    the program applies to strings: [str.lower] (line 18), the containment
    test [keyword in segment_text] (line 19), [" ".join] (line 22) and
    [os.path.basename] (line 74, POSIX flavour), and proves the facts the
    other components use: [py_lower] is idempotent and leaves no upper-case
    letter, [py_contains] is substring containment, [basename] is the part
    after the last slash. *)

From Stdlib Require Import Ascii String.
From stdpp Require Import base list strings.
From S2P Require Import Prelude.

Local Open Scope string_scope.

(** ** [str.lower] on U+0000..U+00FF

    The Unicode lower-case mapping of this range maps A-Z (65-90) and the
    Latin-1 capitals U+00C0..U+00DE, except U+00D7 (multiplication sign),
    to the code point 32 higher; every other code point is its own lower
    case. *)

Definition is_upper_code (n : nat) : bool :=
  (((65 <=? n) && (n <=? 90)) || ((192 <=? n) && (n <=? 222) && negb (n =? 215)))%nat.

Definition py_lower_char (c : Ascii.ascii) : Ascii.ascii :=
  let n := Ascii.nat_of_ascii c in
  if is_upper_code n then Ascii.ascii_of_nat (n + 32)%nat else c.

Fixpoint py_lower (s : string) : string :=
  match s with
  | EmptyString => EmptyString
  | String c r => String (py_lower_char c) (py_lower r)
  end.

Definition is_upper_char (c : Ascii.ascii) : bool := is_upper_code (Ascii.nat_of_ascii c).

(** A string with no upper-case code point. *)
Fixpoint no_upper (s : string) : bool :=
  match s with
  | EmptyString => true
  | String c r => negb (is_upper_char c) && no_upper r
  end.

(** ** [needle in hay] for two strings *)

Fixpoint py_startswith (p s : string) : bool :=
  match p, s with
  | EmptyString, _ => true
  | String c p', String d s' => Ascii.eqb c d && py_startswith p' s'
  | String _ _, EmptyString => false
  end.

Fixpoint py_contains (needle hay : string) : bool :=
  py_startswith needle hay ||
  match hay with
  | EmptyString => false
  | String _ h => py_contains needle h
  end.

(** ** [sep.join(l)] *)

Definition py_join (sep : string) (l : list string) : string := String.concat sep l.

(** ** [os.path.basename] (posixpath: [p[p.rfind('/') + 1:]]) *)

Fixpoint has_slash (s : string) : bool :=
  match s with
  | EmptyString => false
  | String c r => Ascii.eqb c "/"%char || has_slash r
  end.

Fixpoint basename (s : string) : string :=
  match s with
  | EmptyString => EmptyString
  | String c r =>
      if has_slash r then basename r
      else if Ascii.eqb c "/"%char then r else s
  end.

(** ** Lemmas on string concatenation *)

(** stdpp declares [String.append] [simpl never]; these two equations
    are its computation rules. *)
Lemma str_app_nil_l (t : string) : "" +:+ t = t.
Proof. reflexivity. Qed.

Lemma str_app_cons c (s t : string) : String c s +:+ t = String c (s +:+ t).
Proof. reflexivity. Qed.

Lemma str_app_assoc (s t u : string) : s +:+ (t +:+ u) = (s +:+ t) +:+ u.
Proof. induction s; [done | by rewrite !str_app_cons, IHs]. Qed.

Lemma str_app_nil_r (s : string) : s +:+ "" = s.
Proof. induction s; [done | by rewrite str_app_cons, IHs]. Qed.

Lemma str_length_app (s t : string) : String.length (s +:+ t) = String.length s + String.length t.
Proof. induction s; [done|]. rewrite str_app_cons. simpl. by rewrite IHs. Qed.

#[export] Hint Rewrite str_app_nil_l str_app_cons str_app_nil_r str_length_app : transcribe_rw.

(** ** Lemmas on [py_lower] *)

(** The first [n] characters of [t] are a prefix of it. *)
Lemma substring_prefix n t : exists u, t = substring 0 n t +:+ u.
Proof.
  revert n. induction t as [|c t IH]; intros [|n]; simpl.
  - by exists "".
  - by exists "".
  - by exists (String c t).
  - destruct (IH n) as [u Hu]. exists u. rewrite str_app_cons. by f_equal.
Qed.

Lemma substring_length n t : String.length (substring 0 n t) = Nat.min n (String.length t).
Proof. revert n. induction t as [|c t IH]; intros [|n]; simpl; auto. Qed.

Lemma py_lower_char_idem c : py_lower_char (py_lower_char c) = py_lower_char c.
Proof. destruct c as [[] [] [] [] [] [] [] []]; reflexivity. Qed.

Lemma py_lower_char_not_upper c : is_upper_char (py_lower_char c) = false.
Proof. destruct c as [[] [] [] [] [] [] [] []]; reflexivity. Qed.

Lemma py_lower_char_id c : is_upper_char c = false -> py_lower_char c = c.
Proof. unfold py_lower_char, is_upper_char. intros ->. reflexivity. Qed.

Lemma py_lower_idem s : py_lower (py_lower s) = py_lower s.
Proof. induction s; simpl; [done | by rewrite py_lower_char_idem, IHs]. Qed.

Lemma py_lower_no_upper s : no_upper (py_lower s) = true.
Proof. induction s; simpl; [done | by rewrite py_lower_char_not_upper, IHs]. Qed.

Lemma no_upper_py_lower s : no_upper s = true -> py_lower s = s.
Proof.
  induction s as [|c s IH]; simpl; [done|].
  intros [Hc Hs]%andb_prop. apply negb_true_iff in Hc.
  by rewrite py_lower_char_id, IH.
Qed.

Lemma py_lower_length s : String.length (py_lower s) = String.length s.
Proof. induction s; simpl; [done | by rewrite IHs]. Qed.

Lemma py_lower_app s t : py_lower (s +:+ t) = py_lower s +:+ py_lower t.
Proof. induction s; [done|]. rewrite str_app_cons. simpl. by rewrite IHs. Qed.

Lemma no_upper_app s t : no_upper (s +:+ t) = no_upper s && no_upper t.
Proof. induction s; [done|]. rewrite str_app_cons. simpl. by rewrite IHs, andb_assoc. Qed.

#[export] Hint Rewrite py_lower_idem py_lower_app : transcribe_rw.
#[export] Hint Resolve py_lower_no_upper : transcribe.

(** ** Lemmas on [py_startswith] and [py_contains] *)

Lemma py_startswith_spec p s : py_startswith p s = true <-> exists r, s = p +:+ r.
Proof.
  revert s. induction p as [|c p IH]; intros s; simpl.
  - split; eauto.
  - destruct s as [|d s].
    + split; [done|]. intros [r Hr]; discriminate.
    + rewrite andb_true_iff, IH. split.
      * intros [->%Ascii.eqb_eq [r ->]]. eauto.
      * intros [r Hr]. injection Hr as -> ->. rewrite Ascii.eqb_refl. eauto.
Qed.

(** [py_contains] is substring containment. *)
Lemma py_contains_spec n h :
  py_contains n h = true <-> exists a b, h = a +:+ n +:+ b.
Proof.
  induction h as [|c h IH]; simpl.
  - rewrite orb_false_r, py_startswith_spec. split.
    + intros [r Hr]. exists "", r. done.
    + intros [a [b Hab]]. destruct a; [|discriminate]. eauto.
  - rewrite orb_true_iff, py_startswith_spec, IH. split.
    + intros [[r Hr] | [a [b ->]]].
      * exists "", r. done.
      * exists (String c a), b. done.
    + intros [a [b Hab]]. destruct a as [|d a].
      * left. eauto.
      * right. injection Hab as -> ->. eauto.
Qed.

Lemma py_contains_app_l n s t : py_contains n s = true -> py_contains n (s +:+ t) = true.
Proof.
  rewrite !py_contains_spec. intros [a [b ->]]. exists a, (b +:+ t).
  by rewrite <- !str_app_assoc.
Qed.

Lemma py_contains_app_r n s t : py_contains n t = true -> py_contains n (s +:+ t) = true.
Proof.
  rewrite !py_contains_spec. intros [a [b ->]]. exists (s +:+ a), b.
  by rewrite str_app_assoc.
Qed.

#[export] Hint Resolve py_contains_app_l py_contains_app_r : transcribe.

(** ** Lemmas on [py_join] *)

(** Joining with one space adds at most one character per piece. *)
Lemma py_join_space_length l :
  String.length (py_join " " l) <= sum_list_with (fun t => S (String.length t)) l.
Proof.
  unfold py_join. induction l as [|x [|y l] IH]; simpl; [lia | lia|].
  rewrite !str_length_app. simpl in *. lia.
Qed.

(** A non-empty join starts with its first piece. *)
Lemma py_join_cons_prefix v l : exists b, py_join " " (v :: l) = v +:+ b.
Proof. destruct l; simpl; [exists ""; by rewrite str_app_nil_r | by eexists]. Qed.

(** Two adjacent pieces appear in the join separated by one space. *)
Lemma py_join_adjacent l i u v :
  l !! i = Some u -> l !! S i = Some v ->
  exists a b, py_join " " l = a +:+ u +:+ " " +:+ v +:+ b.
Proof.
  revert i. induction l as [|x l IH]; intros i Hu Hv; [done|].
  destruct i as [|i]; simpl in Hu, Hv.
  - injection Hu as ->. destruct l as [|v' l]; [done|]. injection Hv as ->.
    destruct (py_join_cons_prefix v l) as [b Hb]. exists "", b.
    unfold py_join in *. change (String.concat " " (u :: v :: l))
      with (u +:+ " " +:+ String.concat " " (v :: l)).
    by rewrite Hb, str_app_nil_l, !str_app_assoc.
  - destruct (IH i Hu Hv) as (a & b & Hab). destruct l as [|y l]; [done|].
    exists (x +:+ " " +:+ a), b. unfold py_join in *.
    change (String.concat " " (x :: y :: l)) with (x +:+ " " +:+ String.concat " " (y :: l)).
    by rewrite Hab, !str_app_assoc.
Qed.

(** ** Lemmas on [basename] *)

Lemma basename_no_slash s : has_slash (basename s) = false.
Proof.
  induction s as [|c r IH]; simpl; [done|].
  destruct (has_slash r) eqn:Hr; [done|].
  destruct (Ascii.eqb c "/"%char) eqn:Hc; simpl; [done|]. by rewrite Hc, Hr.
Qed.

(** The directory part in front of the basename is empty or ends in a
    slash. *)
Lemma basename_suffix s :
  exists d, s = d +:+ basename s /\ (d = "" \/ exists d', d = d' +:+ "/").
Proof.
  induction s as [|c r IH]; simpl.
  - exists "". auto.
  - destruct (has_slash r) eqn:Hr.
    + destruct IH as [d [Hd Hdir]]. exists (String c d). split; [by rewrite Hd at 1|].
      right. destruct Hdir as [-> | [d' ->]].
      * exists "". simpl. (* d = "" while r has a slash: impossible *)
        exfalso. rewrite Hd, str_app_nil_l, basename_no_slash in Hr. done.
      * exists (String c d'). done.
    + destruct (Ascii.eqb c "/"%char) eqn:Hc.
      * apply Ascii.eqb_eq in Hc as ->. exists "/". split; [done|]. right. by exists "".
      * exists "". auto.
Qed.
