(* ===== verification/PyValue.v ===== *)
(** * PyValue: the Python values and exceptions of transcribe_app_gui.py

    Whisper's [model.transcribe] (line 87) returns a [dict]: ["text"],
    ["segments"] (a list of dicts with ["id"], ["start"], ["end"],
    ["text"], ...) and ["language"].  [remove_ads] reads it with
    subscription ([result["segments"]], [segment["text"]]), iteration
    ([for segment in ...]) and the method call [.lower()].  This file gives
    the values ([pyval]; a dict is its list of entries in insertion order,
    with string keys), the exceptions these operations raise ([py_exc])
    and the operations themselves, with the exception CPython raises on
    each kind of operand. *)

From Stdlib Require Import ZArith PrimFloat Ascii String.
From stdpp Require Import base list strings.
From S2P Require Import Prelude PyStr.

Local Open Scope string_scope.

#[warnings="-register-all"]
Inductive pyval : Type :=
| PyNone
| PyBool (b : bool)
| PyInt (z : Z)
| PyFloat (f : float)
| PyStr (s : string)
| PyList (l : list pyval)
| PyDict (entries : list (string * pyval)).

(** The exceptions of the program: those [remove_ads] can raise, and those
    of the model call and of file writing.  [KeyError] carries the missing
    key, the others CPython's message. *)
Inductive py_exc : Type :=
| KeyError (key : string)
| TypeError (msg : string)
| AttributeError (msg : string)
| RuntimeError (msg : string)
| OSError (msg : string).

(** [type(v).__name__], used in CPython's error messages. *)
Definition py_type_name (v : pyval) : string :=
  match v with
  | PyNone => "NoneType"
  | PyBool _ => "bool"
  | PyInt _ => "int"
  | PyFloat _ => "float"
  | PyStr _ => "str"
  | PyList _ => "list"
  | PyDict _ => "dict"
  end.

Fixpoint dict_lookup (k : string) (entries : list (string * pyval)) : option pyval :=
  match entries with
  | [] => None
  | (k', v) :: rest => if String.eqb k k' then Some v else dict_lookup k rest
  end.

(** [v[k]] with a string key. *)
Definition py_getitem (v : pyval) (k : string) : outcome py_exc pyval :=
  match v with
  | PyDict entries =>
      match dict_lookup k entries with
      | Some x => Ret x
      | None => Exc (KeyError k)
      end
  | PyList _ => Exc (TypeError "list indices must be integers or slices, not str")
  | PyStr _ => Exc (TypeError "string indices must be integers, not 'str'")
  | _ => Exc (TypeError ("'" +:+ py_type_name v +:+ "' object is not subscriptable"))
  end.

(** [iter(v)]: a list yields its items, a string its characters (as
    strings of length one), a dict its keys. *)
Definition py_iter (v : pyval) : outcome py_exc (list pyval) :=
  match v with
  | PyList l => Ret l
  | PyStr s => Ret (map (fun c => PyStr (String c EmptyString)) (list_ascii_of_string s))
  | PyDict entries => Ret (map (fun kv => PyStr kv.1) entries)
  | _ => Exc (TypeError ("'" +:+ py_type_name v +:+ "' object is not iterable"))
  end.

(** [v.lower()]: only a [str] has the method. *)
Definition py_call_lower (v : pyval) : outcome py_exc string :=
  match v with
  | PyStr s => Ret (py_lower s)
  | _ => Exc (AttributeError ("'" +:+ py_type_name v +:+ "' object has no attribute 'lower'"))
  end.

(** ** Lemmas *)

Lemma py_getitem_dict_Some entries k v :
  dict_lookup k entries = Some v -> py_getitem (PyDict entries) k = Ret v.
Proof. simpl. by intros ->. Qed.

Lemma py_getitem_dict_None entries k :
  dict_lookup k entries = None -> py_getitem (PyDict entries) k = Exc (KeyError k).
Proof. simpl. by intros ->. Qed.

Lemma dict_lookup_head k v entries : dict_lookup k ((k, v) :: entries) = Some v.
Proof. simpl. by rewrite String.eqb_refl. Qed.

#[export] Hint Rewrite py_getitem_dict_Some py_getitem_dict_None using assumption : transcribe_rw.
#[export] Hint Rewrite dict_lookup_head : transcribe_rw.
