(* ===== verification/RemoveAds.v ===== *)
(** * RemoveAds: the advertisement filter [remove_ads] (lines 8-22)

    [remove_ads] is modelled as written: the keyword list [ad_keywords]
    (lines 10-13), the test [any(keyword in segment_text ...)] ([is_ad],
    line 19), the per-segment expression [segment["text"].lower()]
    ([segment_lower], line 18), the [for] loop that appends to
    [filtered_segments] ([remove_ads_loop], lines 15-20) and the final
    [" ".join] (line 22).  Every subscription, iteration and method call
    can raise, so the function returns an [outcome py_exc string].

    The abstract specification [remove_ads_spec] works on the list of
    segment texts: lower-case every text, keep those with no keyword,
    join with spaces.  [remove_ads_refines] shows that on every
    well-formed Whisper result ([whisper_texts]) the code computes it.
    The other theorems are the properties of section 8 of the spec, the
    error behaviour, and a counterexample to the spec's claim that an
    excluded phrase cannot occur in the output. *)

From Stdlib Require Import Ascii String.
From stdpp Require Import base list strings.
From S2P Require Import Prelude PyStr PyValue.

Local Open Scope outcome_scope.

(** ** The code *)

Definition ad_keywords : list string :=
  ["sponsored by"; "brought to you by"; "thanks to our sponsor";
   "use promo code"; "limited-time offer"; "our partnership with"].

(** [any(keyword in segment_text for keyword in ad_keywords)] *)
Definition is_ad (segment_text : string) : bool :=
  existsb (fun keyword => py_contains keyword segment_text) ad_keywords.

(** [segment["text"].lower()] *)
Definition segment_lower (segment : pyval) : outcome py_exc string :=
  t <- py_getitem segment "text" ;;
  py_call_lower t.

(** The loop of lines 17-20, [filtered_segments] as the accumulator. *)
Fixpoint remove_ads_loop (segments : list pyval) (filtered_segments : list string)
    : outcome py_exc (list string) :=
  match segments with
  | [] => Ret filtered_segments
  | segment :: rest =>
      segment_text <- segment_lower segment ;;
      if negb (is_ad segment_text)
      then remove_ads_loop rest (filtered_segments ++ [segment_text])
      else remove_ads_loop rest filtered_segments
  end.

Definition remove_ads (transcription_result : pyval) : outcome py_exc string :=
  segs <- py_getitem transcription_result "segments" ;;
  segments <- py_iter segs ;;
  filtered_segments <- remove_ads_loop segments [] ;;
  Ret (py_join " " filtered_segments).

(** ** The specification *)

(** The text of a well-formed segment: a dict whose ["text"] is a str. *)
Definition segment_text_of (segment : pyval) : option string :=
  match segment with
  | PyDict entries =>
      match dict_lookup "text" entries with
      | Some (PyStr s) => Some s
      | _ => None
      end
  | _ => None
  end.

Fixpoint segment_texts (segments : list pyval) : option (list string) :=
  match segments with
  | [] => Some []
  | s :: rest =>
      match segment_text_of s, segment_texts rest with
      | Some t, Some ts => Some (t :: ts)
      | _, _ => None
      end
  end.

(** The texts of a well-formed Whisper result: a dict whose ["segments"]
    is a list of well-formed segments. *)
Definition whisper_texts (r : pyval) : option (list string) :=
  match r with
  | PyDict entries =>
      match dict_lookup "segments" entries with
      | Some (PyList segs) => segment_texts segs
      | _ => None
      end
  | _ => None
  end.

(** A Whisper result with the given segment texts. *)
Definition mk_result (texts : list string) : pyval :=
  PyDict [("segments", PyList (map (fun t => PyDict [("text", PyStr t)]) texts))].

Definition kept_texts (texts : list string) : list string :=
  List.filter (fun t => negb (is_ad t)) (map py_lower texts).

Definition remove_ads_spec (texts : list string) : string :=
  py_join " " (kept_texts texts).

(** A text is free of advertisements when no keyword is a substring. *)
Definition ad_free (t : string) : Prop :=
  forall kw, kw ∈ ad_keywords -> ~ exists a b, t = a +:+ kw +:+ b.

(** ** Lemmas *)

Lemma is_ad_false_iff t : is_ad t = false <-> ad_free t.
Proof.
  unfold is_ad, ad_free. rewrite <- not_true_iff_false, existsb_exists. split.
  - intros H kw Hkw Hsub. apply H. exists kw.
    split; [by apply list_elem_of_In | by apply py_contains_spec].
  - intros H (kw & Hin & Hc). apply (H kw); [by apply list_elem_of_In | by apply py_contains_spec].
Qed.

Lemma segment_lower_of seg s :
  segment_text_of seg = Some s -> segment_lower seg = Ret (py_lower s).
Proof.
  destruct seg as [| | | | | |entries]; try discriminate.
  unfold segment_lower, segment_text_of, py_getitem.
  destruct (dict_lookup "text" entries) as [[]|]; try discriminate.
  intros [= <-]. reflexivity.
Qed.

Lemma segment_texts_app pre post ts :
  segment_texts (pre ++ post) = Some ts ->
  exists ts1 ts2, segment_texts pre = Some ts1 /\ segment_texts post = Some ts2 /\ ts = ts1 ++ ts2.
Proof.
  revert ts. induction pre as [|s pre IH]; intros ts; simpl; [eauto|].
  destruct (segment_text_of s) as [t|]; [|discriminate].
  destruct (segment_texts (pre ++ post)) as [ts'|] eqn:E; [|discriminate].
  intros [= <-]. destruct (IH ts' eq_refl) as (ts1 & ts2 & -> & -> & ->). eauto.
Qed.

Lemma segment_texts_mk texts :
  segment_texts (map (fun t => PyDict [("text", PyStr t)]) texts) = Some texts.
Proof. induction texts as [|t ts IH]; simpl; [done|]. by rewrite IH. Qed.

Lemma whisper_texts_mk texts : whisper_texts (mk_result texts) = Some texts.
Proof. apply segment_texts_mk. Qed.

(** The loop on well-formed segments appends the kept texts. *)
Lemma remove_ads_loop_texts segs ts acc :
  segment_texts segs = Some ts -> remove_ads_loop segs acc = Ret (acc ++ kept_texts ts).
Proof.
  revert ts acc. induction segs as [|s segs IH]; intros ts acc; simpl.
  - intros [= <-]. by rewrite app_nil_r.
  - destruct (segment_text_of s) as [t|] eqn:Ht; [|discriminate].
    destruct (segment_texts segs) as [ts'|] eqn:E; [|discriminate].
    intros [= <-]. rewrite (segment_lower_of _ _ Ht). simpl.
    unfold kept_texts. simpl. destruct (is_ad (py_lower t)); simpl.
    + by apply IH.
    + rewrite (IH ts' _ eq_refl). by rewrite <- app_assoc.
Qed.

(** The loop stops at the first segment whose text cannot be read. *)
Lemma remove_ads_loop_error pre bad post ts acc e :
  segment_texts pre = Some ts -> segment_lower bad = Exc e ->
  remove_ads_loop (pre ++ bad :: post) acc = Exc e.
Proof.
  revert ts acc. induction pre as [|s pre IH]; intros ts acc; simpl.
  - intros _ He. by rewrite He.
  - destruct (segment_text_of s) as [t|] eqn:Ht; [|discriminate].
    destruct (segment_texts pre) as [ts'|] eqn:E; [|discriminate].
    intros _ He. rewrite (segment_lower_of _ _ Ht). simpl.
    destruct (negb (is_ad (py_lower t))); eapply IH; eauto.
Qed.

Lemma segment_lower_no_upper seg t : segment_lower seg = Ret t -> no_upper t = true.
Proof.
  unfold segment_lower. destruct (py_getitem seg "text") as [[]|]; simpl; try discriminate.
  intros [= <-]. apply py_lower_no_upper.
Qed.

Lemma remove_ads_loop_no_upper segs acc out :
  Forall (fun t => no_upper t = true) acc ->
  remove_ads_loop segs acc = Ret out -> Forall (fun t => no_upper t = true) out.
Proof.
  revert acc. induction segs as [|s segs IH]; intros acc Hacc; simpl.
  - by intros [= <-].
  - destruct (segment_lower s) as [t|] eqn:Hs; simpl; [|discriminate].
    destruct (negb (is_ad t)); apply IH; [|done].
    apply Forall_app. split; [done|]. constructor; [by eapply segment_lower_no_upper | constructor].
Qed.

Lemma py_join_no_upper sep l :
  no_upper sep = true -> Forall (fun t => no_upper t = true) l ->
  no_upper (py_join sep l) = true.
Proof.
  intros Hsep. unfold py_join. induction 1 as [|x l Hx Hl IH]; [done|].
  destruct l as [|y l]; [done|]. simpl String.concat.
  rewrite !no_upper_app, Hx, Hsep. exact IH.
Qed.

#[export] Hint Resolve segment_lower_of remove_ads_loop_texts whisper_texts_mk : transcribe.

Lemma kept_texts_sublist texts : kept_texts texts `sublist_of` map py_lower texts.
Proof.
  unfold kept_texts. induction (map py_lower texts) as [|t l IH]; simpl; [done|].
  destruct (negb (is_ad t)); [by apply sublist_skip | by apply sublist_cons].
Qed.

Lemma elem_of_kept_texts t texts :
  t ∈ kept_texts texts <-> (exists t0, t0 ∈ texts /\ t = py_lower t0) /\ is_ad t = false.
Proof.
  unfold kept_texts. rewrite list_elem_of_In, filter_In, <- list_elem_of_In, list_elem_of_fmap.
  rewrite negb_true_iff. split; intros [(y & H1 & H2) H3]; eauto.
Qed.

Lemma kept_texts_idem texts : kept_texts (kept_texts texts) = kept_texts texts.
Proof.
  unfold kept_texts. induction texts as [|t ts IH]; simpl; [done|].
  destruct (is_ad (py_lower t)) eqn:E; simpl; [done|].
  by rewrite py_lower_idem, E, IH.
Qed.

(** ** Theorems *)

(** The code on a well-formed result computes the specification. *)
Lemma remove_ads_wf r texts :
  whisper_texts r = Some texts -> remove_ads r = Ret (remove_ads_spec texts).
Proof.
  destruct r as [| | | | | |entries]; try discriminate. simpl.
  destruct (dict_lookup "segments" entries) as [[]|] eqn:E; try discriminate.
  intros Ht. unfold remove_ads. rewrite (py_getitem_dict_Some _ _ _ E). simpl.
  by rewrite (remove_ads_loop_texts _ _ [] Ht).
Qed.

(** C1: on every well-formed Whisper result (a dict
    whose "segments" is a list of dicts with a str "text"), [remove_ads]
    returns the space-joined lower-cased texts of the segments that contain
    no advertisement keyword, in their original order. *)
Theorem remove_ads_refines r texts :
  whisper_texts r = Some texts -> remove_ads r = Ret (remove_ads_spec texts).
Proof. apply remove_ads_wf. Qed.

Definition spec_scenario : list string :=
  ["Welcome to the show"; "This episode is brought to you by Acme Corp"; "Let's begin"].

(** The concrete scenario of section 8 of the spec. *)
Lemma remove_ads_refines_witness :
  remove_ads (mk_result spec_scenario) = Ret (remove_ads_spec spec_scenario) /\
  remove_ads_spec spec_scenario = "welcome to the show let's begin".
Proof. split; [apply remove_ads_refines; reflexivity | vm_compute; reflexivity]. Defined.

(** C17: the test of line 19 holds of a text
    exactly when one of the six keywords is a substring of it. *)
Theorem is_ad_iff_contains_keyword t :
  is_ad t = true <-> exists kw, kw ∈ ad_keywords /\ exists a b, t = a +:+ kw +:+ b.
Proof.
  unfold is_ad. rewrite existsb_exists. split.
  - intros (kw & Hin & Hc). exists kw. split; [by apply list_elem_of_In | by apply py_contains_spec].
  - intros (kw & Hin & Hc). exists kw. split; [by apply list_elem_of_In | by apply py_contains_spec].
Qed.

(** C2: on a well-formed result the output is the
    join of a list [kept] of lower-cased segment texts that is a
    subsequence of the lower-cased texts in their order, contains no
    keyword as a substring, and contains every lower-cased text that is
    free of keywords: a segment is kept iff its lower-cased text contains
    no keyword. *)
Theorem remove_ads_retains_iff r texts :
  whisper_texts r = Some texts ->
  exists kept, remove_ads r = Ret (py_join " " kept) /\
    kept `sublist_of` map py_lower texts /\
    Forall ad_free kept /\
    (forall t, t ∈ texts -> ad_free (py_lower t) -> py_lower t ∈ kept).
Proof.
  intros Hr. exists (kept_texts texts). split; [by apply remove_ads_wf|].
  split; [apply kept_texts_sublist|]. split.
  - apply Forall_forall. intros k [_ Hk]%elem_of_kept_texts. by apply is_ad_false_iff.
  - intros t Ht Hfree. apply elem_of_kept_texts. split; [eauto|]. by apply is_ad_false_iff.
Qed.

Lemma remove_ads_retains_iff_witness :
  exists kept, remove_ads (mk_result spec_scenario) = Ret (py_join " " kept) /\
    kept `sublist_of` map py_lower spec_scenario /\
    Forall ad_free kept /\
    (forall t, t ∈ spec_scenario -> ad_free (py_lower t) -> py_lower t ∈ kept).
Proof. apply remove_ads_retains_iff. reflexivity. Defined.

(** C13: two well-formed results whose segment
    texts are equal up to case give the same output. *)
Theorem remove_ads_case_insensitive r r' texts texts' :
  whisper_texts r = Some texts -> whisper_texts r' = Some texts' ->
  map py_lower texts = map py_lower texts' ->
  remove_ads r = remove_ads r'.
Proof.
  intros Hr Hr' Hl. rewrite (remove_ads_wf _ _ Hr), (remove_ads_wf _ _ Hr').
  unfold remove_ads_spec, kept_texts. by rewrite Hl.
Qed.

(** "Sponsored By Acme" is dropped exactly as "sponsored by acme" is. *)
Lemma remove_ads_case_insensitive_witness :
  remove_ads (mk_result ["Sponsored By Acme"; "Hello"]) =
  remove_ads (mk_result ["sponsored by acme"; "HELLO"]) /\
  remove_ads (mk_result ["Sponsored By Acme"; "Hello"]) = Ret "hello".
Proof.
  split; [apply (remove_ads_case_insensitive _ _ ["Sponsored By Acme"; "Hello"]
                   ["sponsored by acme"; "HELLO"]); reflexivity | vm_compute; reflexivity].
Defined.

(** C14: filtering again the segments that were kept
    (each segment rebuilt from its kept text) gives the same output. *)
Theorem remove_ads_idempotent r texts :
  whisper_texts r = Some texts ->
  remove_ads (mk_result (kept_texts texts)) = remove_ads r.
Proof.
  intros Hr. rewrite (remove_ads_wf _ _ Hr), (remove_ads_wf _ _ (whisper_texts_mk _)).
  unfold remove_ads_spec. by rewrite kept_texts_idem.
Qed.

Lemma remove_ads_idempotent_witness :
  remove_ads (mk_result (kept_texts spec_scenario)) = remove_ads (mk_result spec_scenario).
Proof. apply remove_ads_idempotent. reflexivity. Defined.

(** C15: whatever the shape of the input, a result
    that [remove_ads] returns contains no upper-case letter. *)
Theorem remove_ads_lowercase r s : remove_ads r = Ret s -> no_upper s = true.
Proof.
  unfold remove_ads. intros H. outcome_inv. subst s.
  apply py_join_no_upper; [reflexivity|]. by eapply remove_ads_loop_no_upper.
Qed.

Lemma remove_ads_lowercase_witness :
  remove_ads (mk_result ["Hello World"; "Use PROMO code X"]) = Ret "hello world" /\
  no_upper "hello world" = true.
Proof.
  assert (H : remove_ads (mk_result ["Hello World"; "Use PROMO code X"]) = Ret "hello world")
    by (vm_compute; reflexivity).
  split; [exact H | exact (remove_ads_lowercase _ _ H)].
Defined.

(** C10: when the segments before [bad] are
    well formed and reading [bad["text"].lower()] raises [e], [remove_ads]
    raises [e]: a segment without a str "text" aborts the whole call. *)
Theorem remove_ads_first_bad_segment r pre bad post ts e :
  py_getitem r "segments" = Ret (PyList (pre ++ bad :: post)) ->
  segment_texts pre = Some ts -> segment_lower bad = Exc e ->
  remove_ads r = Exc e.
Proof.
  intros Hr Hpre Hbad. unfold remove_ads. rewrite Hr. simpl.
  by rewrite (remove_ads_loop_error _ _ _ _ [] _ Hpre Hbad).
Qed.

(** A segment with no "text" key raises [KeyError('text')]; a segment
    whose text is [None] raises [AttributeError]. *)
Lemma remove_ads_first_bad_segment_witness :
  remove_ads (PyDict [("segments", PyList [PyDict [("text", PyStr "Hi")];
                                           PyDict [("start", PyInt 0)]])])
  = Exc (KeyError "text") /\
  remove_ads (PyDict [("segments", PyList [PyDict [("text", PyNone)]])])
  = Exc (AttributeError "'NoneType' object has no attribute 'lower'").
Proof.
  split.
  - apply (remove_ads_first_bad_segment _ [PyDict [("text", PyStr "Hi")]]
             (PyDict [("start", PyInt 0)]) [] ["Hi"]); reflexivity.
  - apply (remove_ads_first_bad_segment _ [] (PyDict [("text", PyNone)]) [] []); reflexivity.
Defined.

(** C11: a dict without a "segments" key makes
    [remove_ads] raise [KeyError('segments')]. *)
Theorem remove_ads_missing_segments entries :
  dict_lookup "segments" entries = None ->
  remove_ads (PyDict entries) = Exc (KeyError "segments").
Proof. intros H. unfold remove_ads. by rewrite (py_getitem_dict_None _ _ H). Qed.

Lemma remove_ads_missing_segments_witness :
  remove_ads (PyDict [("text", PyStr "hello"); ("language", PyStr "en")])
  = Exc (KeyError "segments").
Proof. apply remove_ads_missing_segments. reflexivity. Defined.

(** C16: the join can create a keyword the filter removed nowhere: when
    two adjacent kept segments end and start with the two halves of a
    keyword around a space, the space [" ".join] puts between them
    completes the keyword, so the output contains an advertisement phrase
    although both segments are free of one (against section 8 of the
    spec: "excluded phrases are absent from the output"). *)
Theorem remove_ads_join_creates_keyword r texts s i u v kw k1 k2 :
  whisper_texts r = Some texts -> remove_ads r = Ret s ->
  kept_texts texts !! i = Some u -> kept_texts texts !! S i = Some v ->
  kw ∈ ad_keywords -> kw = k1 +:+ " " +:+ k2 ->
  (exists x, u = x +:+ k1) -> (exists y, v = k2 +:+ y) ->
  ad_free u /\ ad_free v /\ exists a b, s = a +:+ kw +:+ b.
Proof.
  intros Ht Hs Hu Hv Hkw -> [x ->] [y ->].
  rewrite (remove_ads_wf _ _ Ht) in Hs. injection Hs as <-.
  split; [|split].
  - apply is_ad_false_iff, (proj1 (elem_of_kept_texts _ texts)). by eapply list_elem_of_lookup_2.
  - apply is_ad_false_iff, (proj1 (elem_of_kept_texts _ texts)). by eapply list_elem_of_lookup_2.
  - destruct (py_join_adjacent _ _ _ _ Hu Hv) as (a & b & Hab).
    exists (a +:+ x), (y +:+ b). unfold remove_ads_spec. rewrite Hab. by rewrite !str_app_assoc.
Qed.

Lemma remove_ads_join_creates_keyword_witness :
  remove_ads (mk_result ["This hour was sponsored"; "By popular demand, our guest"])
    = Ret "this hour was sponsored by popular demand, our guest" /\
  (ad_free "this hour was sponsored" /\ ad_free "by popular demand, our guest" /\
   exists a b, "this hour was sponsored by popular demand, our guest" = a +:+ "sponsored by" +:+ b).
Proof.
  split; [vm_compute; reflexivity|].
  apply (remove_ads_join_creates_keyword (mk_result ["This hour was sponsored"; "By popular demand, our guest"])
           ["This hour was sponsored"; "By popular demand, our guest"] _ 0 _ _
           "sponsored by" "sponsored" "by");
    [apply whisper_texts_mk | vm_compute; reflexivity | vm_compute; reflexivity
    | vm_compute; reflexivity | left | reflexivity
    | exists "this hour was "; reflexivity | exists " popular demand, our guest"; reflexivity].
Defined.

(** ** Bounds and exceptions *)

Lemma sum_list_with_sublist {A} (f : A -> nat) (l1 l2 : list A) :
  l1 `sublist_of` l2 -> sum_list_with f l1 <= sum_list_with f l2.
Proof. induction 1; simpl; lia. Qed.

Lemma sum_length_py_lower texts :
  sum_list_with (fun t => S (String.length t)) (map py_lower texts)
  = sum_list_with (fun t => S (String.length t)) texts.
Proof. induction texts; simpl; [done|]. by rewrite py_lower_length, IHtexts. Qed.

(** C21: on a well-formed result, the output is at most as long as the
    segment texts together with one separator per segment. *)
Theorem remove_ads_length_bound r texts s :
  whisper_texts r = Some texts -> remove_ads r = Ret s ->
  String.length s <= sum_list_with (fun t => S (String.length t)) texts.
Proof.
  intros Hr Hs. rewrite (remove_ads_wf _ _ Hr) in Hs. injection Hs as <-.
  unfold remove_ads_spec. etransitivity; [apply py_join_space_length|].
  rewrite <- (sum_length_py_lower texts). apply sum_list_with_sublist, kept_texts_sublist.
Qed.

Lemma remove_ads_length_bound_witness :
  String.length "welcome to the show let's begin"
  <= sum_list_with (fun t => S (String.length t)) spec_scenario.
Proof.
  apply (remove_ads_length_bound (mk_result spec_scenario)); [reflexivity | vm_compute; reflexivity].
Defined.

(** The exceptions each step of [remove_ads] can raise. *)
Definition remove_ads_exc (e : py_exc) : Prop :=
  e = KeyError "segments" \/ e = KeyError "text" \/
  (exists m, e = TypeError m) \/ (exists m, e = AttributeError m).

Lemma py_getitem_exc v k e :
  py_getitem v k = Exc e -> e = KeyError k \/ exists m, e = TypeError m.
Proof.
  destruct v; simpl; try (intros [= <-]; eauto).
  destruct (dict_lookup k entries); intros [= <-]; auto.
Qed.

Lemma py_iter_exc v e : py_iter v = Exc e -> exists m, e = TypeError m.
Proof. destruct v; simpl; intros [= <-]; eauto. Qed.

Lemma segment_lower_exc seg e : segment_lower seg = Exc e -> remove_ads_exc e.
Proof.
  unfold segment_lower, remove_ads_exc. destruct (py_getitem seg "text") as [t|e'] eqn:Ht; simpl.
  - destruct t; simpl; intros [= <-]; eauto 10.
  - intros [= <-]. destruct (py_getitem_exc _ _ _ Ht) as [-> | ?]; auto.
Qed.

Lemma remove_ads_loop_exc segs acc e : remove_ads_loop segs acc = Exc e -> remove_ads_exc e.
Proof.
  revert acc. induction segs as [|s segs IH]; intros acc; simpl; [discriminate|].
  destruct (segment_lower s) as [t|e'] eqn:Hs; simpl.
  - destruct (negb (is_ad t)); apply IH.
  - intros [= <-]. by eapply segment_lower_exc.
Qed.

(** C22: whatever its argument, [remove_ads] raises only
    [KeyError('segments')], [KeyError('text')], a [TypeError] or an
    [AttributeError]. *)
Theorem remove_ads_exceptions r e : remove_ads r = Exc e -> remove_ads_exc e.
Proof.
  unfold remove_ads, remove_ads_exc.
  destruct (py_getitem r "segments") as [segs|e'] eqn:Hg; simpl.
  - destruct (py_iter segs) as [segments|e'] eqn:Hi; simpl.
    + destruct (remove_ads_loop segments []) eqn:Hl; simpl; [discriminate|].
      intros [= <-]. by eapply remove_ads_loop_exc.
    + intros [= <-]. destruct (py_iter_exc _ _ Hi). eauto.
  - intros [= <-]. destruct (py_getitem_exc _ _ _ Hg) as [-> | ?]; auto.
Qed.

Lemma remove_ads_exceptions_witness :
  remove_ads (PyDict [("segments", PyInt 3)]) = Exc (TypeError "'int' object is not iterable") /\
  remove_ads_exc (TypeError "'int' object is not iterable").
Proof.
  assert (H : remove_ads (PyDict [("segments", PyInt 3)]) = Exc (TypeError "'int' object is not iterable"))
    by reflexivity.
  split; [exact H | exact (remove_ads_exceptions _ _ H)].
Defined.
