(* ===== verification/Typing.v ===== *)
(** * Typing: the type of Whisper's result and the type safety of [remove_ads]

    [remove_ads] (lines 8-22) assumes that its argument has the shape of
    Whisper's result: a dict with a ["segments"] list whose items are
    dicts with a str ["text"] (spec, section 6: "records each bearing at
    least text").  This file states that assumption as a type: [pytype] is
    a small language of Python types, where [TDict fields] is the type of
    the dicts that have at least the listed keys with values of the listed
    types (extra keys, such as Whisper's ["start"], ["end"], ["tokens"],
    are allowed), and [has_type] is the decidable typing judgment.

    The typing judgment describes exactly the inputs on which the
    specification of [RemoveAds] is defined ([whisper_result_type_iff]).
    The theorems: [remove_ads] returns a string exactly on the values of
    the type and on the dicts whose ["segments"] iterates to nothing,
    such as [""] or [{}] ([remove_ads_domain]); in particular a
    well-typed result never makes [remove_ads] raise. *)

From Stdlib Require Import Ascii String.
From stdpp Require Import base list strings.
From S2P Require Import Prelude PyStr PyValue RemoveAds.

Local Open Scope outcome_scope.
Local Set Warnings "-clear-no-such-hyp".

#[warnings="-register-all"]
Inductive pytype : Type :=
| TAny
| TNone
| TBool
| TInt
| TFloat
| TStr
| TList (t : pytype)
| TDict (fields : list (string * pytype)).

(** The typing judgment, by recursion on the type. *)
Fixpoint has_type (v : pyval) (t : pytype) {struct t} : bool :=
  match t, v with
  | TAny, _ => true
  | TNone, PyNone => true
  | TBool, PyBool _ => true
  | TInt, PyInt _ => true
  | TFloat, PyFloat _ => true
  | TStr, PyStr _ => true
  | TList t', PyList l => forallb (fun x => has_type x t') l
  | TDict fields, PyDict entries =>
      (fix fields_ok (fs : list (string * pytype)) : bool :=
         match fs with
         | [] => true
         | (k, tk) :: fs' =>
             match dict_lookup k entries with
             | Some x => has_type x tk && fields_ok fs'
             | None => false
             end
         end) fields
  | _, _ => false
  end.

Definition whisper_segment_type : pytype := TDict [("text", TStr)].

Definition whisper_result_type : pytype := TDict [("segments", TList whisper_segment_type)].

(** ** Lemmas *)

Lemma has_type_segment seg :
  has_type seg whisper_segment_type = true <-> is_Some (segment_text_of seg).
Proof.
  destruct seg as [| | | | | |entries]; simpl; try (split; [discriminate | by intros []]).
  destruct (dict_lookup "text" entries) as [[]|]; simpl;
    (split; [done || discriminate | by intros []]) || (split; [by eexists | done]).
Qed.

Lemma has_type_segments segs :
  forallb (fun x => has_type x whisper_segment_type) segs = true <-> is_Some (segment_texts segs).
Proof.
  induction segs as [|s segs IH]; [split; [by eexists | done]|].
  cbn [forallb segment_texts]. rewrite andb_true_iff, IH, has_type_segment.
  destruct (segment_text_of s), (segment_texts segs); simpl; unfold is_Some; naive_solver.
Qed.

#[export] Hint Resolve has_type_segment has_type_segments : transcribe.

(** The type of Whisper's result describes exactly the inputs on which
    the specification [whisper_texts] is defined. *)
Lemma whisper_result_type_iff r :
  has_type r whisper_result_type = true <-> is_Some (whisper_texts r).
Proof.
  destruct r as [| | | | | |entries]; simpl; try (split; [discriminate | by intros []]).
  destruct (dict_lookup "segments" entries) as [[]|]; simpl;
    try (split; [discriminate | by intros []]).
  rewrite andb_true_r. apply has_type_segments.
Qed.

(** The results whose ["segments"] iterates to nothing: an empty list,
    but also an empty str or an empty dict, on which the loop of lines
    17-20 runs no iteration. *)
Definition segments_empty (r : pyval) : bool :=
  match r with
  | PyDict entries =>
      match dict_lookup "segments" entries with
      | Some v => match py_iter v with Ret [] => true | _ => false end
      | None => false
      end
  | _ => false
  end.

Lemma segment_lower_typed seg s :
  segment_lower seg = Ret s -> has_type seg whisper_segment_type = true.
Proof.
  destruct seg as [| | | | | |entries]; try discriminate.
  unfold segment_lower, py_getitem. simpl.
  by destruct (dict_lookup "text" entries) as [[]|].
Qed.

Lemma remove_ads_loop_typed segs acc out :
  remove_ads_loop segs acc = Ret out -> forallb (fun x => has_type x whisper_segment_type) segs = true.
Proof.
  revert acc. induction segs as [|seg segs IH]; intros acc; cbn [remove_ads_loop forallb]; [done|].
  destruct (segment_lower seg) as [t|] eqn:Hs; cbn [obind]; [|discriminate].
  rewrite (segment_lower_typed _ _ Hs). destruct (negb (is_ad t)); apply IH.
Qed.

Lemma has_type_result entries :
  has_type (PyDict entries) whisper_result_type =
  match dict_lookup "segments" entries with
  | Some v => has_type v (TList whisper_segment_type)
  | None => false
  end.
Proof. unfold whisper_result_type. cbn [has_type]. destruct (dict_lookup _ _); [apply andb_true_r | done]. Qed.

(** A str is not a segment: the items a str or a dict iterates to are
    all str, so the loop succeeds on them only when there are none. *)
Lemma forallb_typed_strs {A} (f : A -> string) (l : list A) :
  forallb (fun x => has_type x whisper_segment_type) (map (fun a => PyStr (f a)) l) = true -> l = [].
Proof. by destruct l. Qed.

(** ** Theorems *)

(** C20: the domain of [remove_ads]: it returns a string exactly when
    its argument has the type of Whisper's result or is a dict whose
    "segments" iterates to nothing (such as "" or an empty dict, which
    are not lists of segments); on every other value it raises. *)
Theorem remove_ads_domain r :
  (exists s, remove_ads r = Ret s) <->
  has_type r whisper_result_type = true \/ segments_empty r = true.
Proof.
  split.
  - intros [s Hs]. unfold remove_ads in Hs. outcome_inv.
    destruct r as [| | | | | |entries]; try discriminate.
    rewrite has_type_result. unfold segments_empty. cbn [py_getitem] in Hm.
    destruct (dict_lookup "segments" entries) as [v|]; [|discriminate]. injection Hm as <-.
    apply remove_ads_loop_typed in Hm1.
    destruct v as [| | | |str|l|es]; cbn [py_iter] in Hm0; try discriminate; injection Hm0 as <-.
    + right. cbn [py_iter]. by rewrite (forallb_typed_strs _ _ Hm1).
    + left. exact Hm1.
    + right. cbn [py_iter]. by rewrite (forallb_typed_strs _ _ Hm1).
  - intros [Ht | He].
    + apply whisper_result_type_iff in Ht as [texts Ht].
      exists (remove_ads_spec texts). by apply remove_ads_wf.
    + exists "". destruct r as [| | | | | |entries]; try discriminate. simpl in He.
      unfold remove_ads, py_getitem.
      destruct (dict_lookup "segments" entries) as [v|]; [|discriminate]. simpl.
      destruct (py_iter v) as [[]|]; by try discriminate.
Qed.

Lemma remove_ads_domain_witness :
  remove_ads (PyDict [("segments", PyStr "")]) = Ret "" /\
  (exists s, remove_ads (PyDict [("segments", PyDict [])]) = Ret s) /\
  has_type (PyDict [("segments", PyStr "")]) whisper_result_type = false.
Proof.
  split; [reflexivity|]. split; [apply remove_ads_domain; right; reflexivity | reflexivity].
Defined.

