(* ===== verification/Tokens.v ===== *)
(** * Tokens: the word tokens of the transcript (spec, section 8)

    The first testable property of section 8 of the spec is about the
    word tokens of [remove_ads]'s output.  The tokens of a string are
    those of Python's [str.split()] with no argument: the maximal runs of
    characters that are not whitespace, where whitespace is what
    [str.isspace] accepts among the code points U+0000..U+00FF (tab to
    carriage return, the four separators U+001C..U+001F, space, U+0085 and
    U+00A0).  [split_ws] returns the first, possibly empty, run and the
    tokens after it; [words] drops an empty first run.

    The theorem: the tokens of the output are exactly the tokens of the
    kept, lower-cased segments, in order ([remove_ads_words]), which is
    the spec's property with "a subsequence of" strengthened to equality.
    Empty or whitespace-only segments are kept by the code and add
    separators to the output, but no tokens. *)

From Stdlib Require Import Ascii String.
From stdpp Require Import base list strings.
From S2P Require Import Prelude PyStr PyValue RemoveAds.

Local Open Scope outcome_scope.

Definition is_space_code (n : nat) : bool :=
  ((9 <=? n) && (n <=? 13)) || ((28 <=? n) && (n <=? 32)) || (n =? 133) || (n =? 160).

Definition is_space (c : Ascii.ascii) : bool := is_space_code (Ascii.nat_of_ascii c).

(** A run is a token only when it is not empty. *)
Definition cons_word (w : string) (ws : list string) : list string :=
  match w with EmptyString => ws | _ => w :: ws end.

Fixpoint split_ws (s : string) : string * list string :=
  match s with
  | EmptyString => (EmptyString, [])
  | String c s' =>
      let (w, ws) := split_ws s' in
      if is_space c then (EmptyString, cons_word w ws) else (String c w, ws)
  end.

(** [s.split()] *)
Definition words (s : string) : list string :=
  let (w, ws) := split_ws s in cons_word w ws.

(** ** Lemmas *)

Lemma cons_word_app w ws ws' : cons_word w (ws ++ ws') = cons_word w ws ++ ws'.
Proof. by destruct w. Qed.

(** A space ends the run of [s]: the tokens of [t] follow those of [s]. *)
Lemma split_ws_space s t :
  split_ws (s +:+ String " " t) = ((split_ws s).1, (split_ws s).2 ++ words t).
Proof.
  induction s as [|c s IH].
  - rewrite str_app_nil_l. simpl. unfold words. by destruct (split_ws t).
  - rewrite str_app_cons. simpl. rewrite IH.
    destruct (split_ws s) as [w ws]. simpl.
    destruct (is_space c); [by rewrite cons_word_app | done].
Qed.

Lemma words_space s t : words (s +:+ String " " t) = words s ++ words t.
Proof.
  unfold words at 1 2. rewrite split_ws_space.
  destruct (split_ws s) as [w ws]. apply cons_word_app.
Qed.

(** The tokens of a space-joined list are the tokens of its pieces. *)
Lemma words_join l : words (py_join " " l) = mjoin (map words l).
Proof.
  unfold py_join. induction l as [|x [|y l] IH]; [done | simpl; by rewrite app_nil_r |].
  change (String.concat " " (x :: y :: l)) with (x +:+ " " +:+ String.concat " " (y :: l)).
  rewrite str_app_cons, str_app_nil_l, words_space, IH. done.
Qed.

(** ** Theorem *)

(** C28: the word tokens ([str.split()]) of the transcript
    [remove_ads] returns are exactly the tokens of the segments it keeps,
    lower-cased, in their order; empty or blank segments add none. *)
Theorem remove_ads_words r texts s :
  whisper_texts r = Some texts -> remove_ads r = Ret s ->
  words s = mjoin (map words (kept_texts texts)).
Proof.
  intros Ht Hs. rewrite (remove_ads_wf _ _ Ht) in Hs. injection Hs as <-.
  apply words_join.
Qed.

Lemma remove_ads_words_witness :
  remove_ads (mk_result ["Hello  World"; ""; " "; "Sponsored by Acme"; "Bye"]) = Ret "hello  world    bye" /\
  words "hello  world    bye" = ["hello"; "world"; "bye"] /\
  words "hello  world    bye" =
    mjoin (map words (kept_texts ["Hello  World"; ""; " "; "Sponsored by Acme"; "Bye"])).
Proof.
  split; [vm_compute; reflexivity|]. split; [vm_compute; reflexivity|].
  apply (remove_ads_words (mk_result ["Hello  World"; ""; " "; "Sponsored by Acme"; "Bye"]));
    [apply whisper_texts_mk | vm_compute; reflexivity].
Defined.
