(* ===== verification/AppState.v ===== *)
(** * AppState: the state of [TranscriptionApp] and of its event loop

    [TranscriptionApp] (lines 24-112) keeps its state in its widgets and
    two attributes.  [app] has one field per piece of state the slots read
    or write: the text of [self.label] ([label], one constructor per
    message the code shows), the enabled flags of [transcribe_button],
    [cancel_button] and [save_button], the visibility of [progress_bar],
    the plain text of [text_area], [self.audio_file] ([None] or a path)
    and [self.transcription_active].  The select button is never disabled
    and is not a field.  Each setter is named after the Qt call it models.

    The event loop runs in a [world]: the app, the queue of clicks Qt has
    received and not dispatched yet, the batches of clicks still to come
    (one batch arrives each time the GUI thread waits: when the loop is
    idle, or while [model.transcribe] blocks), the file system, and the
    paths given to the model, in order.

    [SpeechModel] is the interface of the Whisper model: a function from
    an audio path to a result dict or an exception.  [FileSystem] is the
    interface of the operating system the save slot writes through: the
    answer of [open] and of [write] for a path. *)

From Stdlib Require Import Ascii String.
From stdpp Require Import base list strings gmap.
From S2P Require Import Prelude PyStr PyValue.

(** ** Widgets and attributes *)

Inductive label_text : Type :=
| LblSelectPrompt              (* "Select an MP3 file to transcribe" (line 37) *)
| LblSelected (name : string)  (* f"✅ Selected: {basename}" (line 74) *)
| LblTranscribing              (* "Transcribing... Please wait." (line 82) *)
| LblComplete                  (* "✅ Transcription Complete!" (line 92) *)
| LblCanceled                  (* "❌ Transcription Canceled!" (line 94) *)
| LblCanceling.                (* "❌ Canceling transcription..." (line 102) *)

Record app : Type := mk_app {
  label : label_text;
  transcribe_enabled : bool;
  cancel_enabled : bool;
  progress_visible : bool;
  text_area : string;
  save_enabled : bool;
  audio_file : option string;
  transcription_active : bool
}.

Definition label_setText (l : label_text) (a : app) : app :=
  mk_app l (transcribe_enabled a) (cancel_enabled a) (progress_visible a)
    (text_area a) (save_enabled a) (audio_file a) (transcription_active a).
Definition transcribe_button_setEnabled (b : bool) (a : app) : app :=
  mk_app (label a) b (cancel_enabled a) (progress_visible a)
    (text_area a) (save_enabled a) (audio_file a) (transcription_active a).
Definition cancel_button_setEnabled (b : bool) (a : app) : app :=
  mk_app (label a) (transcribe_enabled a) b (progress_visible a)
    (text_area a) (save_enabled a) (audio_file a) (transcription_active a).
Definition progress_bar_setVisible (b : bool) (a : app) : app :=
  mk_app (label a) (transcribe_enabled a) (cancel_enabled a) b
    (text_area a) (save_enabled a) (audio_file a) (transcription_active a).
Definition text_area_setPlainText (t : string) (a : app) : app :=
  mk_app (label a) (transcribe_enabled a) (cancel_enabled a) (progress_visible a)
    t (save_enabled a) (audio_file a) (transcription_active a).
Definition save_button_setEnabled (b : bool) (a : app) : app :=
  mk_app (label a) (transcribe_enabled a) (cancel_enabled a) (progress_visible a)
    (text_area a) b (audio_file a) (transcription_active a).
Definition set_audio_file (f : option string) (a : app) : app :=
  mk_app (label a) (transcribe_enabled a) (cancel_enabled a) (progress_visible a)
    (text_area a) (save_enabled a) f (transcription_active a).
Definition set_transcription_active (b : bool) (a : app) : app :=
  mk_app (label a) (transcribe_enabled a) (cancel_enabled a) (progress_visible a)
    (text_area a) (save_enabled a) (audio_file a) b.

(** [__init__] (lines 25-29) with [initUI] (lines 31-68): the initial
    label, the three buttons disabled, the progress bar hidden, an empty
    text area, no file, no transcription running. *)
Definition init_app : app :=
  mk_app LblSelectPrompt false false false "" false None false.

(** ** The plain text of the text area

    [self.text_area.setPlainText(t)] (line 90) builds a document whose
    paragraphs are the parts of [t] between line breaks, a line break
    being LF, CR or CR LF ([QTextCursor::insertText]);
    [self.text_area.toPlainText()] (lines 106 and 112) joins the
    paragraphs with LF and returns every U+00A0 (no-break space) as a
    space ([QTextDocument::toPlainText]).  [text_area] keeps the string
    given to [setPlainText]; [qt_plain_text] is the conversion, on the
    code points U+0000..U+00FF of the model. *)
Fixpoint qt_plain_text (s : string) : string :=
  match s with
  | EmptyString => EmptyString
  | String c s' =>
      if Ascii.eqb c "013"%char then
        match s' with
        | String c2 s'' =>
            if Ascii.eqb c2 "010"%char then String "010"%char (qt_plain_text s'')
            else String "010"%char (qt_plain_text s')
        | EmptyString => String "010"%char EmptyString
        end
      else if Ascii.eqb c "160"%char then String " "%char (qt_plain_text s')
      else String c (qt_plain_text s')
  end.

(** [self.text_area.toPlainText()] *)
Definition toPlainText (a : app) : string := qt_plain_text (text_area a).

Lemma qt_plain_text_nil s : qt_plain_text s = "" <-> s = "".
Proof.
  split; [|by intros ->]. destruct s as [|c s]; [done|]. simpl.
  destruct (Ascii.eqb c _); [destruct s as [|c2 s]; [done|]; by destruct (Ascii.eqb c2 _)|].
  by destruct (Ascii.eqb c _).
Qed.

Lemma toPlainText_nil a : toPlainText a = "" <-> text_area a = "".
Proof. apply qt_plain_text_nil. Qed.

(** ** User input *)

(** A click on one of the four buttons.  A click on "Select File" or
    "Save Transcript" opens a modal file dialog; the click carries the path
    the user picks there ([""] when the dialog is canceled, as
    [QFileDialog] returns). *)
Inductive event : Type :=
| ClickSelect (chosen : string)
| ClickTranscribe
| ClickCancel
| ClickSave (chosen : string).

#[export] Instance label_text_eq_dec : EqDecision label_text.
Proof. solve_decision. Defined.

#[export] Instance event_eq_dec : EqDecision event.
Proof. solve_decision. Defined.

(** ** The world the event loop runs in *)

Record world : Type := mk_world {
  w_app : app;
  w_queue : list event;
  w_input : list (list event);
  w_files : gmap string string;
  w_model_calls : list string
}.

Definition w_update_app (f : app -> app) (w : world) : world :=
  mk_world (f (w_app w)) (w_queue w) (w_input w) (w_files w) (w_model_calls w).
Definition w_set_queue (q : list event) (w : world) : world :=
  mk_world (w_app w) q (w_input w) (w_files w) (w_model_calls w).
Definition w_set_files (fs : gmap string string) (w : world) : world :=
  mk_world (w_app w) (w_queue w) (w_input w) fs (w_model_calls w).

(** The GUI thread waits: the next batch of clicks reaches the queue. *)
Definition arrive (w : world) : world :=
  match w_input w with
  | [] => w
  | b :: bs => mk_world (w_app w) (w_queue w ++ b) bs (w_files w) (w_model_calls w)
  end.

Definition log_model_call (path : string) (w : world) : world :=
  mk_world (w_app w) (w_queue w) (w_input w) (w_files w) (w_model_calls w ++ [path]).

Definition init_world (input : list (list event)) : world :=
  mk_world init_app [] input ∅ [].

(** ** The speech model *)

(** [whisper.load_model("tiny")] (line 28) gives an object whose
    [transcribe(path, word_timestamps=True)] returns the result dict or
    raises. *)
Class SpeechModel : Type := whisper_transcribe : string -> outcome py_exc pyval.

(** ** The file system

    [open(save_path, "w", encoding="utf-8")] (line 111) either raises
    (missing directory, no permission, a directory at that path: all
    subclasses of [OSError]) or creates or truncates the file;
    [f.write(...)] (line 112), with the end of the [with] block that
    flushes and closes the file, either succeeds or raises after the
    first [n] characters reached the file (a full disk).  The answer of
    the operating system depends on the path and, for a write, on the
    text. *)
Class FileSystem : Type := {
  fs_open_w : string -> option py_exc;
  fs_write : string -> string -> option (nat * py_exc)
}.
