(* ===== verification/Handlers.v ===== *)
(** * Handlers: the slots of [TranscriptionApp] and the Qt event loop

    Each slot is a definition of section [Slots], parametrised by the
    [QApplication.processEvents] it calls ([process_events_fn]): the slots
    and the event loop are mutually recursive, since [transcribeAudio]
    (line 85) and [cancelTranscription] (line 103) dispatch pending clicks
    from inside themselves, and a dispatched click may run a slot again.
    [process_events] ties the knot with fuel: each level dispatches the
    pending clicks one by one until the queue is empty.  [exec] is
    [app.exec()] (line 118): it drains the queue, waits for the next batch
    of clicks, and stops when the user has no more input.

    A slot that raises is not caught: PyQt6 then aborts the application,
    which is the outcome [Abort e w] (the exception and the world at that
    moment).  [OutOfFuel] only says the fuel was too small; the theorems
    of [AppProps] show how much is enough. *)

From Stdlib Require Import Ascii String.
From stdpp Require Import base list strings gmap.
From S2P Require Import Prelude PyStr PyValue RemoveAds AppState.

Local Open Scope outcome_scope.

Inductive stop : Type :=
| Abort (e : py_exc) (w : world)
| OutOfFuel.

Section Slots.
Context `{SpeechModel} `{FileSystem}.
Variable process_events_fn : world -> outcome stop world.

(** [openFileDialog] (lines 70-75); [if file_path:] tests for [""]. *)
Definition openFileDialog (file_path : string) (w : world) : world :=
  if String.eqb file_path "" then w
  else w_update_app (fun a => transcribe_button_setEnabled true
                                (label_setText (LblSelected (basename file_path))
                                   (set_audio_file (Some file_path) a))) w.

(** [result = self.model.transcribe(self.audio_file, ...)] (line 87):
    the thread blocks, the next batch of clicks arrives, and the model
    returns its result or raises. *)
Definition model_call (w : world) : outcome stop (world * pyval) :=
  let w' := arrive w in
  match audio_file (w_app w) with
  | None => Exc (Abort (TypeError "expected str, bytes or os.PathLike object, not NoneType") w')
  | Some path =>
      let w'' := log_model_call path w' in
      match whisper_transcribe path with
      | Ret result => Ret (w'', result)
      | Exc e => Exc (Abort e w'')
      end
  end.

(** Lines 88-94: show the filtered transcript, or the canceled message. *)
Definition show_result (result : pyval) (w : world) : outcome stop world :=
  if transcription_active (w_app w) then
    match remove_ads result with
    | Ret clean_transcript =>
        Ret (w_update_app (fun a => label_setText LblComplete
                                     (save_button_setEnabled true
                                        (text_area_setPlainText clean_transcript a))) w)
    | Exc e => Exc (Abort e w)
    end
  else Ret (w_update_app (label_setText LblCanceled) w).

(** Lines 81-84: mark the transcription active, show the waiting
    message and the progress bar, enable the cancel button. *)
Definition start_transcription (w : world) : world :=
  w_update_app (fun a => cancel_button_setEnabled true
                           (progress_bar_setVisible true
                              (label_setText LblTranscribing
                                 (set_transcription_active true a)))) w.

(** Lines 96-98: hide the progress bar, disable the cancel button, mark
    the transcription finished. *)
Definition finish_transcription (w : world) : world :=
  w_update_app (fun a => set_transcription_active false
                           (cancel_button_setEnabled false
                              (progress_bar_setVisible false a))) w.

(** [transcribeAudio] (lines 77-98); [if not self.audio_file: return]
    returns on [None] and on [""]. *)
Definition transcribeAudio (w : world) : outcome stop world :=
  match audio_file (w_app w) with
  | None => Ret w
  | Some f =>
      if String.eqb f "" then Ret w else
      w2 <- process_events_fn (start_transcription w) ;;
      p <- model_call w2 ;;
      w4 <- show_result p.2 p.1 ;;
      Ret (finish_transcription w4)
  end.

(** [cancelTranscription] (lines 100-103). *)
Definition cancelTranscription (w : world) : outcome stop world :=
  process_events_fn (w_update_app (fun a => label_setText LblCanceling
                                             (set_transcription_active false a)) w).

(** [saveTranscript] (lines 105-112): nothing when the plain text of the
    text area is empty or the dialog is canceled; otherwise [open]
    truncates the file and [write] puts the plain text there (Qt's
    [toPlainText], not the string given to [setPlainText]).  Neither call is guarded by [try]:
    an [OSError] of [open] leaves the files as they were, one of [write]
    leaves the prefix that was written, and both propagate out of the
    slot. *)
Definition saveTranscript (save_path : string) (w : world) : outcome stop world :=
  if String.eqb (toPlainText (w_app w)) "" then Ret w
  else if String.eqb save_path "" then Ret w
  else match fs_open_w save_path with
       | Some e => Exc (Abort e w)
       | None =>
           match fs_write save_path (toPlainText (w_app w)) with
           | Some (n, e) =>
               Exc (Abort e (w_set_files (<[save_path := substring 0 n (toPlainText (w_app w))]>
                                            (w_files w)) w))
           | None => Ret (w_set_files (<[save_path := toPlainText (w_app w)]> (w_files w)) w)
           end
       end.

(** Qt delivers a click to a button only when the button is enabled at
    the time the click is dispatched; the select button is always
    enabled.  The connections are those of lines 41, 45, 50 and 64. *)
Definition dispatch (e : event) (w : world) : outcome stop world :=
  match e with
  | ClickSelect p => Ret (openFileDialog p w)
  | ClickTranscribe => if transcribe_enabled (w_app w) then transcribeAudio w else Ret w
  | ClickCancel => if cancel_enabled (w_app w) then cancelTranscription w else Ret w
  | ClickSave p => if save_enabled (w_app w) then saveTranscript p w else Ret w
  end.
End Slots.

(** [QApplication.processEvents()]: dispatch the pending clicks in order
    until none is left. *)
Fixpoint process_events `{SpeechModel} `{FileSystem} (fuel : nat) (w : world) : outcome stop world :=
  match fuel with
  | 0 => Exc OutOfFuel
  | S f =>
      match w_queue w with
      | [] => Ret w
      | e :: q =>
          w' <- dispatch (process_events f) e (w_set_queue q w) ;;
          process_events f w'
      end
  end.

(** [app.exec()]: process the queue, then wait for the next batch of
    clicks; return when the user gives no more input. *)
Fixpoint exec `{SpeechModel} `{FileSystem} (fuel : nat) (w : world) : outcome stop world :=
  match fuel with
  | 0 => Exc OutOfFuel
  | S f =>
      w1 <- process_events f w ;;
      match w_input w1 with
      | [] => Ret w1
      | _ :: _ => exec f (arrive w1)
      end
  end.

(** The program: [TranscriptionApp()] then [app.exec()] on the user's
    input. *)
Definition session `{SpeechModel} `{FileSystem} (fuel : nat) (input : list (list event)) : outcome stop world :=
  exec fuel (init_world input).

(** ** Contracts of the two slots that do not recurse *)

(** C19: picking a non-empty path stores it,
    enables the transcribe button and shows its base name, the part
    after the last slash; a canceled dialog changes nothing. *)
Theorem openFileDialog_selects p w :
  (p = "" -> openFileDialog p w = w) /\
  (p <> "" ->
   audio_file (w_app (openFileDialog p w)) = Some p /\
   transcribe_enabled (w_app (openFileDialog p w)) = true /\
   label (w_app (openFileDialog p w)) = LblSelected (basename p) /\
   has_slash (basename p) = false /\
   exists d, p = d +:+ basename p /\ (d = "" \/ exists d', d = d' +:+ "/")).
Proof.
  unfold openFileDialog. split; [by intros ->|].
  intros Hp%String.eqb_neq. rewrite Hp. split; [done|]. split; [done|]. split; [done|].
  split; [apply basename_no_slash | apply basename_suffix].
Qed.

(** [w'] is [w] with the file [p] holding [c]. *)
Definition wrote (w w' : world) (p c : string) : Prop :=
  w_app w' = w_app w /\ w_model_calls w' = w_model_calls w /\
  w_files w' !! p = Some c /\ forall p', p' <> p -> w_files w' !! p' = w_files w !! p'.

Lemma wrote_insert w p c : wrote w (w_set_files (<[p := c]> (w_files w)) w) p c.
Proof.
  split; [done|]. split; [done|]. split; [apply lookup_insert_eq|].
  intros p' Hne. by apply lookup_insert_ne.
Qed.

(** What [saveTranscript] can return or leave behind: the world
    unchanged, or the file [p] holding the whole plain text, or, when
    [write] raises, a prefix of it. *)
Lemma saveTranscript_shape `{FileSystem} p w :
  let t := toPlainText (w_app w) in
  match saveTranscript p w with
  | Ret w' => w' = w \/ (t <> "" /\ w' = w_set_files (<[p := t]> (w_files w)) w)
  | Exc (Abort _ w') =>
      w' = w \/ exists c u, t <> "" /\ t = c +:+ u /\ w' = w_set_files (<[p := c]> (w_files w)) w
  | Exc OutOfFuel => False
  end.
Proof.
  intros t. unfold saveTranscript. fold t.
  destruct (String.eqb t "") eqn:Ht; [by left|]. apply String.eqb_neq in Ht.
  destruct (String.eqb p ""); [by left|].
  destruct (fs_open_w p); [by left|].
  destruct (fs_write p t) as [[n e]|]; [|by right].
  first [by left | right; destruct (substring_prefix n t) as [u Hu]; by exists (substring 0 n t), u].
Qed.

Section SaveContract.
Context `{FileSystem}.

(** C18: [saveTranscript] on every branch, [t] being the plain text Qt
    returns for the text area (U+00A0 as a space, CR and CR LF as LF):
    with an empty [t] or a canceled dialog it does nothing; otherwise,
    when [open] and [write] succeed the file [p] holds [t] and no other
    file changes; when [open] raises, the exception propagates and no
    file changes; when [write] raises, it propagates and [p] holds a
    prefix of [t]. *)
Theorem saveTranscript_writes p w :
  let t := toPlainText (w_app w) in
  (t = "" \/ p = "" -> saveTranscript p w = Ret w) /\
  (t <> "" -> p <> "" ->
   (fs_open_w p = None -> fs_write p t = None ->
      exists w', saveTranscript p w = Ret w' /\ wrote w w' p t) /\
   (forall e, fs_open_w p = Some e -> saveTranscript p w = Exc (Abort e w)) /\
   (forall n e, fs_open_w p = None -> fs_write p t = Some (n, e) ->
      exists w' c u, saveTranscript p w = Exc (Abort e w') /\ wrote w w' p c /\ t = c +:+ u)).
Proof.
  intros t. unfold saveTranscript. fold t. split.
  - intros [-> | ->]; [done|]. by destruct (String.eqb t "").
  - intros Ht%String.eqb_neq Hp%String.eqb_neq. rewrite Ht, Hp.
    split; [|split].
    + intros -> ->. eexists. split; [reflexivity | apply wrote_insert].
    + by intros e ->.
    + intros n e -> ->. destruct (substring_prefix n t) as [u Hu].
      do 3 eexists. split; [reflexivity|]. split; [apply wrote_insert | exact Hu].
Qed.
End SaveContract.
