(* ===== verification/AppProps.v ===== *)
(** * AppProps: termination, invariants and scenarios of the event loop

    - Termination: the fuel [process_events] and [exec] need is bounded by
      [pending], the number of clicks queued or still to come plus the
      number of batches still to come; with more fuel they never run out
      ([process_events_terminates], [exec_total]).
    - Invariants: [app_inv] (the transcribe button is enabled exactly when
      a file is selected; the text area is empty or the filtered
      transcript of a model result; every saved file is such a transcript)
      holds in every state the slots reach, nested ones included; [idle]
      (no transcription active, cancel disabled, progress hidden) holds
      whenever the event loop waits for input.
    - Witnesses on a concrete model [demo_model].

    The proofs use two predicates on outcomes: [total m Q] (the fuel was
    enough and [Q] holds of a returned value) and [partial m Q] ([Q] holds
    of a returned value), with their bind rules. *)

From Stdlib Require Import Ascii String.
From stdpp Require Import base list strings gmap.
From S2P Require Import Prelude PyStr PyValue RemoveAds AppState Handlers.

Local Open Scope outcome_scope.

(** ** Predicates on outcomes *)

Definition total {A} (m : outcome stop A) (Q : A -> Prop) : Prop :=
  match m with
  | Ret a => Q a
  | Exc OutOfFuel => False
  | Exc (Abort _ _) => True
  end.

Definition partial {A} (m : outcome stop A) (Q : A -> Prop) : Prop :=
  match m with
  | Ret a => Q a
  | Exc _ => True
  end.

Lemma total_bind {A B} (m : outcome stop A) (k : A -> outcome stop B) P Q :
  total m P -> (forall a, P a -> total (k a) Q) -> total (obind m k) Q.
Proof. destruct m as [a|[]]; simpl; auto. Qed.

Lemma partial_bind {A B} (m : outcome stop A) (k : A -> outcome stop B) P Q :
  partial m P -> (forall a, P a -> partial (k a) Q) -> partial (obind m k) Q.
Proof. destruct m as [a|[]]; simpl; auto. Qed.

Lemma total_weaken {A} (m : outcome stop A) (P Q : A -> Prop) :
  total m P -> (forall a, P a -> Q a) -> total m Q.
Proof. destruct m as [a|[]]; simpl; auto. Qed.

Lemma partial_weaken {A} (m : outcome stop A) (P Q : A -> Prop) :
  partial m P -> (forall a, P a -> Q a) -> partial m Q.
Proof. destruct m as [a|[]]; simpl; auto. Qed.

Lemma total_not_out_of_fuel {A} (m : outcome stop A) Q : total m Q -> m <> Exc OutOfFuel.
Proof. by intros Ht ->. Qed.

Lemma total_Ret {A} (m : outcome stop A) Q a : total m Q -> m = Ret a -> Q a.
Proof. by intros Ht ->. Qed.

#[export] Hint Resolve total_bind partial_bind : transcribe.

(** ** Measure of the remaining input *)

Definition pending (w : world) : nat :=
  length (w_queue w) + sum_list_with (fun b => S (length b)) (w_input w).

Lemma pending_arrive_lt w b bs :
  w_input w = b :: bs -> S (pending (arrive w)) = pending w.
Proof. unfold pending, arrive. intros ->. simpl. rewrite length_app. lia. Qed.

Lemma pending_arrive w : pending (arrive w) <= pending w.
Proof.
  destruct (w_input w) as [|b bs] eqn:E.
  - unfold arrive. by rewrite E.
  - rewrite <- (pending_arrive_lt w b bs E). lia.
Qed.

Lemma pending_update_app f w : pending (w_update_app f w) = pending w.
Proof. reflexivity. Qed.

Lemma pending_set_files fs w : pending (w_set_files fs w) = pending w.
Proof. reflexivity. Qed.

Lemma pending_log p w : pending (log_model_call p w) = pending w.
Proof. reflexivity. Qed.

Lemma pending_pop w e q : w_queue w = e :: q -> pending w = S (pending (w_set_queue q w)).
Proof. unfold pending. intros ->. reflexivity. Qed.

#[export] Hint Rewrite pending_update_app pending_set_files pending_log : transcribe_rw.

(** ** Termination *)

Section Termination.
Context `{SpeechModel} `{FileSystem}.

(** [pe] runs out of fuel on no world of measure at most [n], and never
    increases the measure. *)
Definition fuel_ok (pe : world -> outcome stop world) (n : nat) : Prop :=
  forall w, pending w <= n -> total (pe w) (fun w' => pending w' <= pending w).

Lemma model_call_total w : total (model_call w) (fun p => pending p.1 <= pending w).
Proof.
  unfold model_call. destruct (audio_file (w_app w)) as [path|]; simpl; [|done].
  destruct (whisper_transcribe path); simpl; [|done].
  rewrite pending_log. apply pending_arrive.
Qed.

Lemma show_result_total r w : total (show_result r w) (fun w' => pending w' = pending w).
Proof. unfold show_result. destruct (transcription_active _); [destruct (remove_ads r)|]; done. Qed.

Lemma saveTranscript_total p w : total (saveTranscript p w) (fun w' => pending w' = pending w).
Proof.
  pose proof (saveTranscript_shape p w) as Hs.
  destruct (saveTranscript p w) as [w'|[e w'|]]; simpl in *; [|done|done].
  by destruct Hs as [-> | [_ ->]].
Qed.

Lemma saveTranscript_app p w : partial (saveTranscript p w) (fun w' => w_app w' = w_app w).
Proof.
  pose proof (saveTranscript_shape p w) as Hs.
  destruct (saveTranscript p w) as [w'|]; simpl in *; [|done].
  by destruct Hs as [-> | [_ ->]].
Qed.

Lemma dispatch_total pe n e w :
  fuel_ok pe n -> pending w <= n -> total (dispatch pe e w) (fun w' => pending w' <= pending w).
Proof.
  intros Hpe Hw. destruct e; simpl.
  - unfold openFileDialog. destruct (String.eqb _ _); simpl; rewrite ?pending_update_app, ?pending_set_files; lia.
  - destruct (transcribe_enabled _); simpl; [|lia].
    unfold transcribeAudio. destruct (audio_file _) as [f|]; simpl; [|lia].
    destruct (String.eqb f ""); simpl; [lia|].
    eapply total_bind; [apply Hpe; unfold start_transcription; rewrite pending_update_app; lia|].
    intros w2 Hw2.
    eapply total_bind; [apply model_call_total|]. intros [w3 r] Hw3. simpl in Hw3.
    eapply total_bind; [apply show_result_total|]. intros w4 Hw4. simpl.
    simpl in *. unfold start_transcription, finish_transcription in *.
    rewrite !pending_update_app in *. lia.
  - destruct (cancel_enabled _); simpl; [|lia]. unfold cancelTranscription.
    eapply total_weaken; [apply Hpe; rewrite pending_update_app; lia|].
    intros w'. by rewrite pending_update_app.
  - destruct (save_enabled _); simpl; [|lia].
    eapply total_weaken; [apply saveTranscript_total|]. intros w' ->. lia.
Qed.

Lemma process_events_total_aux fuel w :
  pending w < fuel ->
  total (process_events fuel w) (fun w' => pending w' <= pending w /\ w_queue w' = []).
Proof.
  revert w. induction fuel as [|fuel IH]; intros w Hw; [lia|]. simpl.
  destruct (w_queue w) as [|e q] eqn:Eq; simpl; [done|].
  rewrite (pending_pop w e q Eq) in Hw |- *.
  eapply total_bind.
  - apply (dispatch_total _ (fuel - 1)); [|lia].
    intros w' Hw'. eapply total_weaken; [apply IH; lia|]. by intros ? [].
  - intros w' Hw'. simpl in Hw'. eapply total_weaken; [apply IH; lia|]. intros ? []. split; [lia|done].
Qed.

(** C5: [processEvents] with more fuel than
    the clicks and batches still to come either aborts on an exception
    or returns with the queue drained; it never runs out of fuel. *)
Theorem process_events_terminates fuel w :
  pending w < fuel ->
  (exists e w', process_events fuel w = Exc (Abort e w')) \/
  (exists w', process_events fuel w = Ret w' /\ w_queue w' = []).
Proof.
  intros Hw. pose proof (process_events_total_aux fuel w Hw) as Ht.
  destruct (process_events fuel w) as [w'|[e w'|]]; simpl in Ht; [|by eauto|done].
  right. exists w'. by destruct Ht.
Qed.

Lemma exec_total fuel w : pending w + 1 < fuel -> total (exec fuel w) (fun _ => True).
Proof.
  revert w. induction fuel as [|fuel IH]; intros w Hw; [lia|]. simpl.
  eapply total_bind; [apply process_events_total_aux; lia|]. intros w1 [Hp _].
  destruct (w_input w1) as [|b bs] eqn:E; simpl; [done|].
  apply IH. rewrite <- (pending_arrive_lt _ _ _ E) in Hp. lia.
Qed.

End Termination.

(** ** Invariants *)

Section Invariants.
Context `{SpeechModel} `{FileSystem}.

(** The transcribe button is enabled exactly when [self.audio_file] is
    a non-empty path. *)
Definition sel_inv (a : app) : Prop :=
  transcribe_enabled a = match audio_file a with
                         | Some f => negb (String.eqb f "")
                         | None => false
                         end.

(** [t] is the filtered transcript of a result the model returned for
    one of the paths it was called on. *)
Definition transcript_of (calls : list string) (t : string) : Prop :=
  exists path r, path ∈ calls /\ whisper_transcribe path = Ret r /\ remove_ads r = Ret t.

(** [c] is what [toPlainText] returns for such a transcript: the text a
    save writes. *)
Definition saved_text_of (calls : list string) (c : string) : Prop :=
  exists t, transcript_of calls t /\ c = qt_plain_text t.

Definition app_inv (w : world) : Prop :=
  sel_inv (w_app w) /\
  (text_area (w_app w) = "" \/ transcript_of (w_model_calls w) (text_area (w_app w))) /\
  (text_area (w_app w) <> "" -> save_enabled (w_app w) = true) /\
  (forall p c, w_files w !! p = Some c -> c <> "" /\ saved_text_of (w_model_calls w) c).

Definition idle (a : app) : Prop :=
  transcription_active a = false /\ cancel_enabled a = false /\ progress_visible a = false.

Lemma transcript_of_mono calls calls' t :
  calls ⊆ calls' -> transcript_of calls t -> transcript_of calls' t.
Proof. intros Hsub (path & r & Hin & Hr & Ht). exists path, r. auto. Qed.

Lemma saved_text_of_mono calls calls' c :
  calls ⊆ calls' -> saved_text_of calls c -> saved_text_of calls' c.
Proof. intros Hsub (t & Ht & ->). exists t. split; [by eapply transcript_of_mono | done]. Qed.

(** Updating widgets other than the text area, the save button, the
    transcribe button and the file keeps [app_inv]. *)
Lemma app_inv_update w f :
  text_area (f (w_app w)) = text_area (w_app w) ->
  save_enabled (f (w_app w)) = save_enabled (w_app w) ->
  transcribe_enabled (f (w_app w)) = transcribe_enabled (w_app w) ->
  audio_file (f (w_app w)) = audio_file (w_app w) ->
  app_inv w -> app_inv (w_update_app f w).
Proof.
  intros Ht Hs Htr Ha. unfold app_inv, sel_inv. simpl. rewrite Ht, Hs, Htr, Ha. tauto.
Qed.

Lemma app_inv_arrive w : app_inv w -> app_inv (arrive w).
Proof. unfold arrive. by destruct (w_input w). Qed.

Lemma app_inv_log path w : app_inv w -> app_inv (log_model_call path w).
Proof.
  assert (Hsub : w_model_calls w ⊆ w_model_calls w ++ [path])
    by (intros x Hx; apply elem_of_app; by left).
  intros (Hsel & Htext & Hsave & Hfiles). split; [done|]. split; [|split; [done|]].
  - destruct Htext; [left | right; eapply transcript_of_mono]; eauto.
  - intros p c Hp. destruct (Hfiles p c Hp). split; [done | by eapply saved_text_of_mono].
Qed.

Lemma model_call_inv w :
  app_inv w ->
  partial (model_call w) (fun p => app_inv (fst p) /\
    exists path, path ∈ w_model_calls (fst p) /\ whisper_transcribe path = Ret (snd p)).
Proof.
  intros Hinv. unfold model_call.
  destruct (audio_file (w_app w)) as [path|]; simpl; [|done].
  destruct (whisper_transcribe path) as [r|] eqn:Er; simpl; [|done].
  split; [by apply app_inv_log, app_inv_arrive|].
  exists path. split; [apply elem_of_app; right; by left | done].
Qed.

Lemma show_result_inv r w :
  app_inv w -> (exists path, path ∈ w_model_calls w /\ whisper_transcribe path = Ret r) ->
  partial (show_result r w) app_inv.
Proof.
  intros Hinv (path & Hin & Hr). unfold show_result.
  destruct (transcription_active (w_app w)); [|by apply app_inv_update].
  destruct (remove_ads r) as [clean|] eqn:Ec; simpl; [|done].
  destruct Hinv as (Hsel & _ & _ & Hfiles). unfold app_inv, sel_inv in *. simpl.
  split; [done|]. split; [right; by exists path, r|]. split; [done|]. exact Hfiles.
Qed.

Lemma app_inv_set_queue q w : app_inv w -> app_inv (w_set_queue q w).
Proof. done. Qed.

Lemma app_inv_init input : app_inv (init_world input).
Proof.
  split; [done|]. split; [by left|]. split; [done|].
  intros p c Hp. simpl in Hp. by rewrite lookup_empty in Hp.
Qed.

Lemma partial_True {A} (m : outcome stop A) : partial m (fun _ => True).
Proof. by destruct m. Qed.

Section SlotInv.
Variable pe : world -> outcome stop world.
Hypothesis pe_inv : forall w, app_inv w -> partial (pe w) app_inv.

Lemma openFileDialog_inv p w : app_inv w -> app_inv (openFileDialog p w).
Proof.
  unfold openFileDialog. destruct (String.eqb p "") eqn:Ep; [done|].
  intros (Hsel & Htext & Hsave & Hfiles). unfold app_inv, sel_inv. simpl.
  by rewrite Ep.
Qed.

Lemma saveTranscript_inv p w : app_inv w -> partial (saveTranscript p w) app_inv.
Proof.
  intros Hinv. pose proof (saveTranscript_shape p w) as Hs.
  destruct (saveTranscript p w) as [w'|]; simpl in *; [|done].
  destruct Hs as [-> | [Ht ->]]; [done|].
  destruct Hinv as (Hsel & Htext & Hsave & Hfiles).
  split; [done|]. split; [done|]. split; [done|].
  intros p' c. simpl. rewrite lookup_insert.
  case_decide; [intros [= <-]; split; [done|] | apply Hfiles].
  assert (Hta : text_area (w_app w) <> "") by (intros E; apply Ht; unfold toPlainText; by rewrite E).
  destruct Htext as [E | Htr]; [done|]. by exists (text_area (w_app w)).
Qed.

Lemma transcribeAudio_inv w : app_inv w -> partial (transcribeAudio pe w) app_inv.
Proof.
  intros Hinv. unfold transcribeAudio.
  destruct (audio_file (w_app w)) as [f|]; [|done]. destruct (String.eqb f ""); [done|].
  eapply partial_bind; [apply pe_inv; by apply app_inv_update|]. intros w2 Hw2.
  eapply partial_bind; [by apply model_call_inv|]. intros [w3 r] [Hw3 Hr].
  eapply partial_bind; [by apply show_result_inv|]. intros w4 Hw4. simpl.
  by apply app_inv_update.
Qed.

Lemma dispatch_inv e w : app_inv w -> partial (dispatch pe e w) app_inv.
Proof.
  intros Hinv. destruct e; simpl.
  - by apply openFileDialog_inv.
  - destruct (transcribe_enabled _); [by apply transcribeAudio_inv | done].
  - destruct (cancel_enabled _); [|done]. apply pe_inv. by apply app_inv_update.
  - destruct (save_enabled _); [by apply saveTranscript_inv | done].
Qed.
End SlotInv.

Lemma process_events_inv fuel w : app_inv w -> partial (process_events fuel w) app_inv.
Proof.
  revert w. induction fuel as [|fuel IH]; intros w Hinv; [done|]. simpl.
  destruct (w_queue w) as [|e q]; [done|].
  eapply partial_bind; [apply dispatch_inv; [exact IH | by apply app_inv_set_queue]|].
  exact IH.
Qed.

Lemma exec_inv fuel w : app_inv w -> partial (exec fuel w) app_inv.
Proof.
  revert w. induction fuel as [|fuel IH]; intros w Hinv; [done|]. simpl.
  eapply partial_bind; [by apply process_events_inv|]. intros w1 Hw1.
  destruct (w_input w1); [done|]. by apply IH, app_inv_arrive.
Qed.

(** *** Idle states *)

Lemma transcribeAudio_idle pe w :
  idle (w_app w) -> partial (transcribeAudio pe w) (fun w' => idle (w_app w')).
Proof.
  intros Hidle. unfold transcribeAudio.
  destruct (audio_file (w_app w)) as [f|]; [|done]. destruct (String.eqb f ""); [done|].
  eapply partial_bind; [apply partial_True|]. intros w2 _.
  eapply partial_bind; [apply partial_True|]. intros p _.
  eapply partial_bind; [apply partial_True|]. intros w4 _. done.
Qed.

Lemma dispatch_idle pe e w :
  idle (w_app w) -> partial (dispatch pe e w) (fun w' => idle (w_app w')).
Proof.
  intros Hidle. pose proof Hidle as (Ha & Hc & Hp). destruct e; simpl.
  - unfold openFileDialog. by destruct (String.eqb _ _).
  - destruct (transcribe_enabled _); [by apply transcribeAudio_idle | done].
  - by rewrite Hc.
  - destruct (save_enabled _); [|done].
    eapply partial_weaken; [apply saveTranscript_app|]. by intros w' ->.
Qed.

Lemma process_events_idle fuel w :
  idle (w_app w) -> partial (process_events fuel w) (fun w' => idle (w_app w')).
Proof.
  revert w. induction fuel as [|fuel IH]; intros w Hidle; [done|]. simpl.
  destruct (w_queue w) as [|e q]; [done|].
  eapply partial_bind; [by apply dispatch_idle|]. exact IH.
Qed.

Lemma exec_idle fuel w :
  idle (w_app w) -> partial (exec fuel w) (fun w' => idle (w_app w')).
Proof.
  revert w. induction fuel as [|fuel IH]; intros w Hidle; [done|]. simpl.
  eapply partial_bind; [by apply process_events_idle|]. intros w1 Hw1.
  destruct (w_input w1); [done|]. apply IH. unfold arrive. by destruct (w_input w1).
Qed.
End Invariants.

(** ** Theorems on the event loop *)

Section EventLoop.
Context `{SpeechModel} `{FileSystem}.

Lemma partial_Ret {A} (m : outcome stop A) Q a : partial m Q -> m = Ret a -> Q a.
Proof. by intros Hp ->. Qed.

(** C7: every state [processEvents] returns
    to, from a state satisfying [app_inv], satisfies it: the transcribe
    button is enabled exactly when a non-empty path is selected, the text
    area is empty or the filtered transcript of a model result, and the
    save button is enabled whenever the text area is not empty.  The
    slots it runs may be nested to any depth. *)
Theorem process_events_preserves_inv fuel w w' :
  app_inv w -> process_events fuel w = Ret w' -> app_inv w'.
Proof. intros Hinv Hpe. exact (partial_Ret _ _ _ (process_events_inv fuel w Hinv) Hpe). Qed.

(** C8: started while idle, [processEvents] returns idle:
    each slot it dispatches leaves no transcription active, the cancel
    button disabled and the progress bar hidden. *)
Theorem idle_preserved fuel w w' :
  idle (w_app w) -> process_events fuel w = Ret w' -> idle (w_app w').
Proof. intros Hidle Hpe. exact (partial_Ret _ _ _ (process_events_idle fuel w Hidle) Hpe). Qed.

(** C6: at the end of any run of the program, every file it saved holds
    a non-empty text that is the plain text Qt returns ([qt_plain_text]:
    U+00A0 as a space, CR and CR LF as LF) of [remove_ads] of a result
    the model returned for an audio file it was given. *)
Theorem saved_files_are_transcripts fuel input w p c :
  session fuel input = Ret w -> w_files w !! p = Some c ->
  c <> "" /\ exists t, transcript_of (w_model_calls w) t /\ c = qt_plain_text t.
Proof.
  intros Hs Hp. pose proof (partial_Ret _ _ _ (exec_inv fuel _ (app_inv_init input)) Hs)
    as (_ & _ & _ & Hfiles).
  exact (Hfiles p c Hp).
Qed.
End EventLoop.

(** ** Witnesses on a concrete model and input *)

(** A model that knows one file, whose transcript is the scenario of
    section 8 of the spec, and fails on every other path. *)
Definition demo_model : SpeechModel := fun path =>
  if String.eqb path "/home/u/ep.mp3" then Ret (mk_result spec_scenario)
  else Exc (RuntimeError "Failed to load audio").

(** An operating system on which [open] is refused under [/proc/] and
    [write] stops after four characters under [/mnt/full/]. *)
Definition demo_fs : FileSystem := {|
  fs_open_w p := if py_startswith "/proc/" p then Some (OSError "[Errno 13] Permission denied") else None;
  fs_write p t := if py_startswith "/mnt/full/" p
                  then Some (4, OSError "[Errno 28] No space left on device") else None |}.

(** Select the file, transcribe, click Cancel during the model call, save. *)
Definition demo_input : list (list event) :=
  [[ClickSelect "/home/u/ep.mp3"]; [ClickTranscribe]; [ClickCancel]; [ClickSave "out.txt"]].

Definition demo_world : world :=
  mk_world init_app [ClickSelect "/home/u/ep.mp3"; ClickTranscribe]
    [[ClickCancel]; [ClickSave "out.txt"]] ∅ [].

Lemma process_events_terminates_witness :
  pending demo_world < 10 /\
  ((exists e w', @process_events demo_model demo_fs 10 demo_world = Exc (Abort e w')) \/
   (exists w', @process_events demo_model demo_fs 10 demo_world = Ret w' /\ w_queue w' = [])).
Proof.
  assert (Hp : pending demo_world < 10) by (unfold pending; simpl; lia).
  split; [exact Hp | exact (@process_events_terminates demo_model demo_fs 10 demo_world Hp)].
Defined.

Lemma process_events_preserves_inv_witness :
  exists w', @process_events demo_model demo_fs 10 (w_set_queue (w_queue demo_world) (init_world []))
             = Ret w' /\ @app_inv demo_model w'.
Proof.
  eexists. split; [vm_compute; reflexivity|].
  eapply (@process_events_preserves_inv demo_model demo_fs 10
            (w_set_queue (w_queue demo_world) (init_world [])));
    [apply app_inv_set_queue, app_inv_init | vm_compute; reflexivity].
Defined.

Lemma idle_preserved_witness :
  exists w', @process_events demo_model demo_fs 10 demo_world = Ret w' /\ idle (w_app w').
Proof.
  eexists. split; [vm_compute; reflexivity|].
  eapply (@idle_preserved demo_model demo_fs 10 demo_world); [repeat split | vm_compute; reflexivity].
Defined.

Lemma saved_files_are_transcripts_witness :
  exists w, @session demo_model demo_fs 20 demo_input = Ret w /\
    w_files w !! "out.txt" = Some "welcome to the show let's begin" /\
    "welcome to the show let's begin" <> "" /\
    exists t, @transcript_of demo_model (w_model_calls w) t /\
      "welcome to the show let's begin" = qt_plain_text t.
Proof.
  eexists. split; [vm_compute; reflexivity|].
  assert (Hf : w_files (mk_world (mk_app LblComplete true false false
                 "welcome to the show let's begin" true (Some "/home/u/ep.mp3") false)
                 [] [] {[ "out.txt" := "welcome to the show let's begin" ]} ["/home/u/ep.mp3"])
               !! "out.txt" = Some "welcome to the show let's begin")
    by (simpl; by rewrite lookup_singleton_eq).
  split; [exact Hf|].
  eapply (@saved_files_are_transcripts demo_model demo_fs 20 demo_input); [vm_compute; reflexivity | exact Hf].
Defined.
