(* ===== verification/Scenarios.v ===== *)
(** * Scenarios: cancellation and re-entrancy of [transcribeAudio]

    [transcribeAudio] (lines 77-98) calls [QApplication.processEvents()]
    once, at line 85, before the blocking model call, and
    [transcription_active] is only read after the call returns (line 88).
    These theorems run the event loop from an idle state with a selected
    file, for any speech model, and show what the user sees:
    - clicks on Cancel made while the model runs are dispatched after the
      slot has disabled the button again, and are ignored
      ([cancel_during_model_call_ignored]);
    - a Cancel click already queued when line 85 runs does cancel, but only
      after the model has run to completion
      ([cancel_before_model_call_discards]);
    - a second click on Transcribe queued at line 85 runs a nested
      transcription, whose last line resets [transcription_active]: the
      outer one then reports "Transcription Canceled!" although nobody
      canceled, and the model runs twice ([double_transcribe_reports_canceled]);
    - an exception of the model escapes the slot with the label still
      "Transcribing..." and the progress bar visible
      ([model_exception_aborts]). *)

From Stdlib Require Import Ascii String.
From stdpp Require Import base list strings gmap.
From S2P Require Import Prelude PyStr PyValue RemoveAds AppState Handlers AppProps.

Local Open Scope outcome_scope.

(** The application waits for input with the file [f] selected. *)
Definition ready (w : world) (f : string) : Prop :=
  idle (w_app w) /\ transcribe_enabled (w_app w) = true /\
  audio_file (w_app w) = Some f /\ f <> "".

Section SlotEquations.
Context `{SpeechModel} `{FileSystem}.

(** Clicks on a disabled cancel button are dropped one by one. *)
Lemma process_events_ignored_cancels fuel w :
  cancel_enabled (w_app w) = false -> Forall (fun e => e = ClickCancel) (w_queue w) ->
  length (w_queue w) < fuel -> process_events fuel w = Ret (w_set_queue [] w).
Proof.
  destruct w as [a q inp fs calls]. simpl. intros Hc Hq.
  revert fuel. induction Hq as [|e q -> Hq IH]; intros fuel Hf;
    (destruct fuel as [|fuel]; [simpl in Hf; lia|]); simpl; [done|].
  rewrite Hc. simpl. apply IH. simpl in Hf. lia.
Qed.

(** Equations of the slots on the branches the scenarios take. *)
Lemma process_events_nil n w : w_queue w = [] -> process_events (S n) w = Ret w.
Proof. simpl. by intros ->. Qed.

Lemma process_events_cons n w e q :
  w_queue w = e :: q ->
  process_events (S n) w = obind (dispatch (process_events n) e (w_set_queue q w)) (process_events n).
Proof. simpl. by intros ->. Qed.

Lemma dispatch_transcribe pe w :
  transcribe_enabled (w_app w) = true -> dispatch pe ClickTranscribe w = transcribeAudio pe w.
Proof. simpl. by intros ->. Qed.

Lemma dispatch_cancel pe w :
  cancel_enabled (w_app w) = true -> dispatch pe ClickCancel w = cancelTranscription pe w.
Proof. simpl. by intros ->. Qed.

Lemma transcribeAudio_eq pe w f :
  audio_file (w_app w) = Some f -> f <> "" ->
  transcribeAudio pe w =
    (w2 <- pe (start_transcription w) ;;
     p <- model_call w2 ;;
     w4 <- show_result p.2 p.1 ;;
     Ret (finish_transcription w4)).
Proof. intros Ha Hf%String.eqb_neq. unfold transcribeAudio. by rewrite Ha, Hf. Qed.

Lemma model_call_ok w f r :
  audio_file (w_app w) = Some f -> whisper_transcribe f = Ret r ->
  model_call w = Ret (log_model_call f (arrive w), r).
Proof. intros Ha Hr. unfold model_call. by rewrite Ha, Hr. Qed.

Lemma model_call_exc w f e :
  audio_file (w_app w) = Some f -> whisper_transcribe f = Exc e ->
  model_call w = Exc (Abort e (log_model_call f (arrive w))).
Proof. intros Ha Hr. unfold model_call. by rewrite Ha, Hr. Qed.

Lemma show_result_complete r w clean :
  transcription_active (w_app w) = true -> remove_ads r = Ret clean ->
  show_result r w = Ret (w_update_app (fun a => label_setText LblComplete
                          (save_button_setEnabled true (text_area_setPlainText clean a))) w).
Proof. intros Ha Hc. unfold show_result. by rewrite Ha, Hc. Qed.

Lemma show_result_canceled r w :
  transcription_active (w_app w) = false ->
  show_result r w = Ret (w_update_app (label_setText LblCanceled) w).
Proof. intros Ha. unfold show_result. by rewrite Ha. Qed.

Lemma exec_S n w :
  exec (S n) w = obind (process_events n w)
                   (fun w1 => match w_input w1 with [] => Ret w1 | _ :: _ => exec n (arrive w1) end).
Proof. reflexivity. Qed.

Lemma dispatch_select pe p w : dispatch pe (ClickSelect p) w = Ret (openFileDialog p w).
Proof. reflexivity. Qed.

Lemma dispatch_save pe p w :
  save_enabled (w_app w) = true -> dispatch pe (ClickSave p) w = saveTranscript p w.
Proof. simpl. by intros ->. Qed.

Lemma openFileDialog_pick p w :
  p <> "" ->
  openFileDialog p w = w_update_app (fun a => transcribe_button_setEnabled true
                         (label_setText (LblSelected (basename p)) (set_audio_file (Some p) a))) w.
Proof. intros Hp%String.eqb_neq. unfold openFileDialog. by rewrite Hp. Qed.

Lemma saveTranscript_write p w :
  text_area (w_app w) <> "" -> p <> "" ->
  fs_open_w p = None -> fs_write p (toPlainText (w_app w)) = None ->
  saveTranscript p w = Ret (w_set_files (<[p := toPlainText (w_app w)]> (w_files w)) w).
Proof.
  intros Ht Hp%String.eqb_neq Ho Hw. rewrite <- toPlainText_nil, <- String.eqb_neq in Ht.
  unfold saveTranscript. by rewrite Ht, Hp, Ho, Hw.
Qed.

Lemma saveTranscript_empty p w : text_area (w_app w) = "" -> saveTranscript p w = Ret w.
Proof. intros Ht%toPlainText_nil. unfold saveTranscript. by rewrite Ht. Qed.

Lemma saveTranscript_write_error p w n e :
  text_area (w_app w) <> "" -> p <> "" ->
  fs_open_w p = None -> fs_write p (toPlainText (w_app w)) = Some (n, e) ->
  saveTranscript p w =
    Exc (Abort e (w_set_files (<[p := substring 0 n (toPlainText (w_app w))]> (w_files w)) w)).
Proof.
  intros Ht Hp%String.eqb_neq Ho Hw. rewrite <- toPlainText_nil, <- String.eqb_neq in Ht.
  unfold saveTranscript. by rewrite Ht, Hp, Ho, Hw.
Qed.
End SlotEquations.

(** [run_slots] evaluates the event loop on a world whose fields are
    known, with the slot equations above. *)
Ltac run_slots :=
  repeat (first
    [ rewrite obind_Ret
    | rewrite process_events_nil by reflexivity
    | erewrite process_events_cons by reflexivity
    | rewrite dispatch_transcribe by reflexivity
    | rewrite dispatch_cancel by reflexivity
    | erewrite transcribeAudio_eq by (reflexivity || assumption)
    | erewrite model_call_ok by (reflexivity || eassumption)
    | erewrite show_result_complete by (reflexivity || eassumption)
    | rewrite show_result_canceled by reflexivity
    | progress unfold cancelTranscription
    | progress cbn [fst snd] ]).

Section Scenarios.
Context `{SpeechModel} `{FileSystem}.

(** C3: from an idle state with a file
    selected, a click on Transcribe followed by any number of clicks on
    Cancel while the model runs ends with the transcript shown and
    "Transcription Complete!": the cancel clicks reach the button after
    line 97 disabled it again. *)
Theorem cancel_during_model_call_ignored fuel w f r clean cancels rest :
  ready w f ->
  w_queue w = [ClickTranscribe] -> w_input w = cancels :: rest ->
  Forall (fun e => e = ClickCancel) cancels ->
  whisper_transcribe f = Ret r -> remove_ads r = Ret clean ->
  length cancels + 2 < fuel ->
  exists w', process_events fuel w = Ret w' /\
    label (w_app w') = LblComplete /\ text_area (w_app w') = clean /\
    w_model_calls w' = w_model_calls w ++ [f] /\ w_input w' = rest.
Proof.
  destruct w as [[lbl te ce pv ta se af act] q inp fs calls].
  intros ((Hact & Hce & Hpv) & Hte & Haf & Hf) Hq Hinp Hc Hr Hclean Hfuel. simpl in *. subst.
  destruct fuel as [|[|fuel]]; [lia|lia|].
  rewrite (process_events_cons _ _ ClickTranscribe []) by reflexivity.
  rewrite dispatch_transcribe by reflexivity.
  rewrite (transcribeAudio_eq _ _ f) by done.
  rewrite process_events_nil by reflexivity. rewrite obind_Ret.
  rewrite (model_call_ok _ f r) by done. rewrite obind_Ret. simpl fst; simpl snd.
  rewrite (show_result_complete _ _ clean) by done. rewrite !obind_Ret.
  rewrite process_events_ignored_cancels; [| reflexivity | simpl; done | simpl; lia].
  eexists. split; [reflexivity|]. simpl. done.
Qed.

(** C4: two clicks on Transcribe
    pending when the first runs line 85 start a nested transcription;
    its line 98 clears [transcription_active], so the outer one shows
    "Transcription Canceled!" over the transcript the inner one
    displayed, with no Cancel click, and the model runs twice. *)
Theorem double_transcribe_reports_canceled fuel w f r clean rest :
  ready w f ->
  w_queue w = [ClickTranscribe; ClickTranscribe] -> w_input w = [] :: [] :: rest ->
  whisper_transcribe f = Ret r -> remove_ads r = Ret clean ->
  3 < fuel ->
  exists w', process_events fuel w = Ret w' /\
    label (w_app w') = LblCanceled /\ text_area (w_app w') = clean /\
    w_model_calls w' = w_model_calls w ++ [f; f] /\ idle (w_app w').
Proof.
  destruct w as [[lbl te ce pv ta se af act] q inp fs calls].
  intros ((Hact & Hce & Hpv) & Hte & Haf & Hf) Hq Hinp Hr Hclean Hfuel. simpl in *. subst.
  destruct fuel as [|[|[|fuel]]]; [lia..|].
  run_slots. eexists. split; [reflexivity|]. simpl.
  by rewrite <- app_assoc.
Qed.

(** C9: a Cancel click already queued
    when line 85 dispatches the pending clicks cancels the transcription:
    the label says "Transcription Canceled!" and the text area and the
    save button are unchanged; but the model still runs to completion on
    the file. *)
Theorem cancel_before_model_call_discards fuel w f r rest :
  ready w f ->
  w_queue w = [ClickTranscribe; ClickCancel] -> w_input w = [] :: rest ->
  whisper_transcribe f = Ret r ->
  3 < fuel ->
  exists w', process_events fuel w = Ret w' /\
    label (w_app w') = LblCanceled /\ text_area (w_app w') = text_area (w_app w) /\
    save_enabled (w_app w') = save_enabled (w_app w) /\
    w_model_calls w' = w_model_calls w ++ [f] /\ idle (w_app w').
Proof.
  destruct w as [[lbl te ce pv ta se af act] q inp fs calls].
  intros ((Hact & Hce & Hpv) & Hte & Haf & Hf) Hq Hinp Hr Hfuel. simpl in *. subst.
  destruct fuel as [|[|[|fuel]]]; [lia..|].
  run_slots. eexists. split; [reflexivity|]. done.
Qed.

(** C12: when the model raises, or returns a
    result [remove_ads] cannot read, the exception escapes
    [transcribeAudio]; at that point the label still says
    "Transcribing...", the progress bar is visible and the transcription
    is still marked active. *)
Theorem model_exception_aborts fuel w f e rest :
  ready w f ->
  w_queue w = [ClickTranscribe] -> w_input w = [] :: rest ->
  (whisper_transcribe f = Exc e \/
   exists r, whisper_transcribe f = Ret r /\ remove_ads r = Exc e) ->
  2 < fuel ->
  exists w', process_events fuel w = Exc (Abort e w') /\
    label (w_app w') = LblTranscribing /\ progress_visible (w_app w') = true /\
    transcription_active (w_app w') = true /\ w_model_calls w' = w_model_calls w ++ [f].
Proof.
  destruct w as [[lbl te ce pv ta se af act] q inp fs calls].
  intros ((Hact & Hce & Hpv) & Hte & Haf & Hf) Hq Hinp He Hfuel. simpl in *. subst.
  destruct fuel as [|[|fuel]]; [lia..|].
  run_slots. destruct He as [He | (r & Hr & He)].
  - erewrite model_call_exc by (reflexivity || eassumption). simpl.
    eexists. split; [reflexivity|]. done.
  - run_slots. unfold show_result. simpl. rewrite He. simpl.
    eexists. split; [reflexivity|]. done.
Qed.
End Scenarios.

(** ** Witnesses on the model [demo_model] *)

Definition selected_world (q : list event) (input : list (list event)) : world :=
  mk_world (mk_app (LblSelected "ep.mp3") true false false "" false (Some "/home/u/ep.mp3") false)
    q input ∅ [].

Lemma cancel_during_model_call_ignored_witness :
  exists w', @process_events demo_model demo_fs 6 (selected_world [ClickTranscribe] [[ClickCancel; ClickCancel]])
             = Ret w' /\
    label (w_app w') = LblComplete /\ text_area (w_app w') = "welcome to the show let's begin" /\
    w_model_calls w' = [] ++ ["/home/u/ep.mp3"] /\ w_input w' = [].
Proof.
  apply (@cancel_during_model_call_ignored demo_model demo_fs 6
           (selected_world [ClickTranscribe] [[ClickCancel; ClickCancel]]) "/home/u/ep.mp3" (mk_result spec_scenario)
           _ [ClickCancel; ClickCancel] []);
    [repeat split; discriminate | reflexivity | reflexivity
    | repeat constructor | reflexivity | vm_compute; reflexivity | simpl; lia].
Defined.

Lemma double_transcribe_reports_canceled_witness :
  exists w', @process_events demo_model demo_fs 6
               (selected_world [ClickTranscribe; ClickTranscribe] [[]; []]) = Ret w' /\
    label (w_app w') = LblCanceled /\ text_area (w_app w') = "welcome to the show let's begin" /\
    w_model_calls w' = [] ++ ["/home/u/ep.mp3"; "/home/u/ep.mp3"] /\ idle (w_app w').
Proof.
  apply (@double_transcribe_reports_canceled demo_model demo_fs 6
           (selected_world [ClickTranscribe; ClickTranscribe] [[]; []]) "/home/u/ep.mp3" (mk_result spec_scenario)
           _ []);
    [repeat split; discriminate | reflexivity | reflexivity
    | reflexivity | vm_compute; reflexivity | lia].
Defined.

Lemma cancel_before_model_call_discards_witness :
  exists w', @process_events demo_model demo_fs 6
               (selected_world [ClickTranscribe; ClickCancel] [[]]) = Ret w' /\
    label (w_app w') = LblCanceled /\ text_area (w_app w') = "" /\
    save_enabled (w_app w') = false /\
    w_model_calls w' = [] ++ ["/home/u/ep.mp3"] /\ idle (w_app w').
Proof.
  apply (@cancel_before_model_call_discards demo_model demo_fs 6
           (selected_world [ClickTranscribe; ClickCancel] [[]]) "/home/u/ep.mp3" (mk_result spec_scenario) []);
    [repeat split; discriminate | reflexivity | reflexivity
    | reflexivity | lia].
Defined.

Lemma model_exception_aborts_witness :
  exists w', @process_events demo_model demo_fs 6
               (mk_world (mk_app (LblSelected "x.wav") true false false "" false (Some "x.wav") false)
                  [ClickTranscribe] [[]] ∅ [])
             = Exc (Abort (RuntimeError "Failed to load audio") w') /\
    label (w_app w') = LblTranscribing /\ progress_visible (w_app w') = true /\
    transcription_active (w_app w') = true /\ w_model_calls w' = [] ++ ["x.wav"].
Proof.
  apply (@model_exception_aborts demo_model demo_fs 6
           (mk_world (mk_app (LblSelected "x.wav") true false false "" false (Some "x.wav") false)
              [ClickTranscribe] [[]] ∅ []) "x.wav" _ []);
    [repeat split; discriminate | reflexivity | reflexivity
    | left; reflexivity | lia].
Defined.
