(* ===== verification/EndToEnd.v ===== *)
(** * EndToEnd: whole runs of the program

    The theorems of this file are about [session] (the program from
    [TranscriptionApp()] to the end of [app.exec()], line 114-118), that is
    about the composition of the four slots, [remove_ads] and the event
    loop over all of the user's input:
    - liveness: with enough fuel, a run either aborts on an exception or
      returns once every click of the input has been dispatched
      ([session_consumes_input]);
    - a bound: the model is called at most once per click on Transcribe
      ([session_model_calls_bound]); the measure [call_budget] (calls made
      plus Transcribe clicks still pending) never grows;
    - a round trip: selecting a file, transcribing it and saving writes to
      the chosen path exactly the filtered transcript of the model's result
      ([select_transcribe_save_roundtrip]); when [write] fails there the
      file is left truncated ([select_transcribe_save_write_error]);
    - boundary and ordering: an all-ads transcript enables Save on an
      empty text area and Save does nothing
      ([select_transcribe_save_empty]); a Select click queued behind
      Transcribe changes the file that is transcribed
      ([reselect_during_transcribe]). *)

From Stdlib Require Import Ascii String.
From stdpp Require Import base list strings gmap.
From S2P Require Import Prelude PyStr PyValue RemoveAds AppState Handlers AppProps Scenarios.

Local Open Scope outcome_scope.

(** ** Counting clicks on Transcribe *)

Definition is_transcribe (e : event) : nat :=
  match e with ClickTranscribe => 1 | _ => 0 end.

Definition tclicks (es : list event) : nat := sum_list_with is_transcribe es.

Definition pending_transcribes (w : world) : nat :=
  tclicks (w_queue w) + sum_list_with tclicks (w_input w).

Definition call_budget (w : world) : nat :=
  length (w_model_calls w) + pending_transcribes w.

(** Every click of the input has been dispatched. *)
Definition all_consumed (w : world) : Prop := w_queue w = [] /\ w_input w = [].

Lemma call_budget_arrive w : call_budget (arrive w) = call_budget w.
Proof.
  destruct w as [a q [|b bs] fs c]; [done|].
  unfold call_budget, pending_transcribes, arrive, tclicks; simpl.
  rewrite sum_list_with_app. lia.
Qed.

Lemma call_budget_log p w : call_budget (log_model_call p w) = S (call_budget w).
Proof. unfold call_budget, pending_transcribes. simpl. rewrite length_app. simpl. lia. Qed.

Lemma call_budget_update_app f w : call_budget (w_update_app f w) = call_budget w.
Proof. done. Qed.

Lemma call_budget_set_files fs w : call_budget (w_set_files fs w) = call_budget w.
Proof. done. Qed.

Create Rewrite HintDb budget.
#[local] Hint Rewrite call_budget_update_app call_budget_set_files call_budget_arrive
  call_budget_log : budget.

Lemma call_budget_pop w e q :
  w_queue w = e :: q -> call_budget w = call_budget (w_set_queue q w) + is_transcribe e.
Proof. unfold call_budget, pending_transcribes, tclicks. intros ->. simpl. lia. Qed.

Section Budget.
Context `{SpeechModel} `{FileSystem}.

Lemma model_call_budget w :
  partial (model_call w) (fun p => call_budget p.1 <= S (call_budget w)).
Proof.
  unfold model_call. destruct (audio_file (w_app w)) as [path|]; simpl; [|done].
  destruct (whisper_transcribe path); simpl; [|done].
  rewrite call_budget_log, call_budget_arrive. lia.
Qed.

Lemma show_result_budget r w : partial (show_result r w) (fun w' => call_budget w' = call_budget w).
Proof. unfold show_result. destruct (transcription_active _); [destruct (remove_ads r)|]; done. Qed.

Section WithPe.
Variable pe : world -> outcome stop world.
Hypothesis pe_budget : forall w, partial (pe w) (fun w' => call_budget w' <= call_budget w).

Lemma dispatch_budget e w :
  partial (dispatch pe e w) (fun w' => call_budget w' <= call_budget w + is_transcribe e).
Proof.
  destruct e; simpl.
  - unfold openFileDialog. destruct (String.eqb _ _); autorewrite with budget; lia.
  - destruct (transcribe_enabled _); simpl; [|lia]. unfold transcribeAudio.
    destruct (audio_file _) as [f|]; simpl; [|lia]. destruct (String.eqb f ""); simpl; [lia|].
    eapply partial_bind; [apply pe_budget|]. intros w2 Hw2.
    eapply partial_bind; [apply model_call_budget|]. intros [w3 r] Hw3.
    eapply partial_bind; [apply show_result_budget|]. intros w4 Hw4.
    unfold finish_transcription, start_transcription in *. simpl in *.
    autorewrite with budget in *. lia.
  - destruct (cancel_enabled _); simpl; [|lia]. unfold cancelTranscription.
    eapply partial_weaken; [apply pe_budget|]. intros w'. autorewrite with budget. lia.
  - destruct (save_enabled _); simpl; [|lia].
    pose proof (saveTranscript_shape chosen w) as Hs.
    destruct (saveTranscript chosen w) as [w'|]; simpl in *; [|done].
    destruct Hs as [-> | [_ ->]]; autorewrite with budget; lia.
Qed.
End WithPe.

Lemma process_events_budget fuel w :
  partial (process_events fuel w) (fun w' => call_budget w' <= call_budget w).
Proof.
  revert w. induction fuel as [|fuel IH]; intros w; simpl; [done|].
  destruct (w_queue w) as [|e q] eqn:Eq; simpl; [done|].
  rewrite (call_budget_pop w e q Eq).
  eapply partial_bind; [apply dispatch_budget, IH|]. intros w' Hw'.
  eapply partial_weaken; [apply IH|]. intros ? ?. cbv beta in *. lia.
Qed.

Lemma exec_budget fuel w : partial (exec fuel w) (fun w' => call_budget w' <= call_budget w).
Proof.
  revert w. induction fuel as [|fuel IH]; intros w; simpl; [done|].
  eapply partial_bind; [apply process_events_budget|]. intros w1 Hw1.
  destruct (w_input w1); simpl; [done|].
  eapply partial_weaken; [apply IH|]. intros ? ?. cbv beta in *. rewrite call_budget_arrive in *. lia.
Qed.

Lemma process_events_drains fuel w : partial (process_events fuel w) (fun w' => w_queue w' = []).
Proof.
  revert w. induction fuel as [|fuel IH]; intros w; simpl; [done|].
  destruct (w_queue w) eqn:Eq; simpl; [done|].
  eapply partial_bind; [apply partial_True|]. intros w' _. apply IH.
Qed.

Lemma exec_consumes fuel w : partial (exec fuel w) all_consumed.
Proof.
  revert w. induction fuel as [|fuel IH]; intros w; simpl; [done|].
  eapply partial_bind; [apply process_events_drains|]. intros w1 Hq.
  destruct (w_input w1) eqn:Ei; simpl; [by split | apply IH].
Qed.
End Budget.

(** [run_session] extends [run_slots] with the equations of [exec], of
    the select and save slots. *)
Ltac run_session :=
  repeat (first
    [ progress run_slots
    | rewrite exec_S
    | rewrite dispatch_select
    | rewrite dispatch_save by reflexivity
    | erewrite openFileDialog_pick by assumption
    | rewrite saveTranscript_empty by reflexivity
    | erewrite saveTranscript_write by (unfold toPlainText; simpl; assumption)
    | erewrite saveTranscript_write_error by (unfold toPlainText; simpl; eassumption)
    | rewrite obind_Exc
    | progress cbn [fst snd w_input w_queue w_app arrive w_update_app w_set_queue
                    w_set_files log_model_call start_transcription finish_transcription] ]).

(** The user selects [f], clicks Transcribe, gives no click during the
    model call, then clicks Save and picks [p]. *)
Definition select_transcribe_save (f p : string) : list (list event) :=
  [[ClickSelect f]; [ClickTranscribe]; []; [ClickSave p]].

(** The user selects [f], clicks Transcribe and, before the slot reaches
    line 85, Select again and picks [g]; no click during the model
    call. *)
Definition select_transcribe_reselect (f g : string) : list (list event) :=
  [[ClickSelect f]; [ClickTranscribe; ClickSelect g]; []].

Section Sessions.
Context `{SpeechModel} `{FileSystem}.

Lemma total_partial_cases {A} (m : outcome stop A) P Q :
  total m P -> partial m Q ->
  (exists e w, m = Exc (Abort e w)) \/ (exists a, m = Ret a /\ Q a).
Proof. destruct m as [a|[e w|]]; simpl; [right; eauto | left; eauto | done]. Qed.

Lemma call_budget_init input : call_budget (init_world input) = sum_list_with tclicks input.
Proof. done. Qed.

(** C23: liveness of the whole program: with fuel above the number of
    clicks plus one per batch, plus one, a run either stops on an
    exception or returns after dispatching every click the user gave. *)
Theorem session_consumes_input fuel input :
  pending (init_world input) + 1 < fuel ->
  (exists e w, session fuel input = Exc (Abort e w)) \/
  (exists w, session fuel input = Ret w /\ all_consumed w).
Proof. intros Hf. eapply total_partial_cases; [by apply exec_total | apply exec_consumes]. Qed.

(** C24: the model is called (line 87) at most once per click on
    Transcribe: a nested transcription started from line 85 consumes a
    click of its own, and a click on Cancel never calls the model. *)
Theorem session_model_calls_bound fuel input w :
  session fuel input = Ret w -> length (w_model_calls w) <= sum_list_with tclicks input.
Proof.
  intros Hs. rewrite <- call_budget_init.
  pose proof (partial_Ret _ _ _ (exec_budget fuel (init_world input)) Hs) as Hb.
  unfold call_budget in Hb at 1. lia.
Qed.

(** C25: round trip from the model to the file: selecting [f], clicking
    Transcribe, then Save with the path [p] writes to [p] the plain text
    Qt returns for the filtered transcript [clean] of the model's result
    ([qt_plain_text clean]: [clean] with U+00A0 as a space and CR, CR LF
    as LF; lines 87-90 and 105-112), shows "Transcription Complete!",
    and calls the model once. *)
Theorem select_transcribe_save_roundtrip f p r clean fuel :
  f <> "" -> p <> "" -> whisper_transcribe f = Ret r -> remove_ads r = Ret clean -> clean <> "" ->
  fs_open_w p = None -> fs_write p (qt_plain_text clean) = None -> 8 < fuel ->
  exists w, session fuel (select_transcribe_save f p) = Ret w /\
    w_files w !! p = Some (qt_plain_text clean) /\ label (w_app w) = LblComplete /\ w_model_calls w = [f].
Proof.
  intros Hf Hp Hr Hc Hne Ho Hw Hfuel.
  do 8 (destruct fuel as [|fuel]; [lia|]).
  unfold session, select_transcribe_save, init_world.
  run_session.
  eexists. split; [reflexivity|]. cbn. split; [by simplify_map_eq | done].
Qed.

(** C26: a failed save loses the transcript: when [write] raises after
    [n] characters, fewer than the plain text of the transcript has, in
    the same session, the exception leaves [saveTranscript] unhandled
    (lines 111-112 have no [try]) and ends the application, and the file
    [p] holds a proper prefix of that plain text. *)
Theorem select_transcribe_save_write_error f p r clean n e fuel :
  f <> "" -> p <> "" -> whisper_transcribe f = Ret r -> remove_ads r = Ret clean -> clean <> "" ->
  fs_open_w p = None -> fs_write p (qt_plain_text clean) = Some (n, e) ->
  n < String.length (qt_plain_text clean) -> 8 < fuel ->
  exists w c u, session fuel (select_transcribe_save f p) = Exc (Abort e w) /\
    w_files w !! p = Some c /\ qt_plain_text clean = c +:+ u /\ c <> qt_plain_text clean.
Proof.
  intros Hf Hp Hr Hc Hne Ho Hw Hn Hfuel.
  do 8 (destruct fuel as [|fuel]; [lia|]).
  unfold session, select_transcribe_save, init_world.
  run_session.
  destruct (substring_prefix n (qt_plain_text clean)) as [u Hu].
  do 3 eexists. split; [reflexivity|]. cbn. split; [by simplify_map_eq|]. split; [exact Hu|].
  intros Heq. pose proof (substring_length n (qt_plain_text clean)) as Hl. rewrite Heq in Hl. lia.
Qed.
(** C29: boundary case of an empty transcript: when every segment is an
    advertisement (or there are none), [remove_ads] returns "" and the
    session ends with "Transcription Complete!", an empty text area and
    the save button enabled (line 91); the click on Save then does nothing
    (line 106 returns before the dialog), and no file is written. *)
Theorem select_transcribe_save_empty f p r fuel :
  f <> "" -> whisper_transcribe f = Ret r -> remove_ads r = Ret "" -> 8 < fuel ->
  exists w, session fuel (select_transcribe_save f p) = Ret w /\
    label (w_app w) = LblComplete /\ text_area (w_app w) = "" /\
    save_enabled (w_app w) = true /\ w_files w = ∅.
Proof.
  intros Hf Hr Hc Hfuel.
  do 8 (destruct fuel as [|fuel]; [lia|]).
  unfold session, select_transcribe_save, init_world.
  run_session.
  eexists. split; [reflexivity|]. done.
Qed.

(** C30: ordering of a Select click queued behind Transcribe: the slot
    reads [self.audio_file] at line 87, after the [processEvents] of line
    85 has run [openFileDialog] for [g]; the model transcribes [g], not the
    file [f] selected when Transcribe was clicked, and the result is shown
    as the transcript with "Transcription Complete!". *)
Theorem reselect_during_transcribe f g r clean fuel :
  f <> "" -> g <> "" -> whisper_transcribe g = Ret r -> remove_ads r = Ret clean -> 6 < fuel ->
  exists w, session fuel (select_transcribe_reselect f g) = Ret w /\
    w_model_calls w = [g] /\ audio_file (w_app w) = Some g /\
    text_area (w_app w) = clean /\ label (w_app w) = LblComplete.
Proof.
  intros Hf Hg Hr Hc Hfuel.
  do 6 (destruct fuel as [|fuel]; [lia|]).
  unfold session, select_transcribe_reselect, init_world.
  run_session.
  eexists. split; [reflexivity|]. done.
Qed.
End Sessions.

(** ** Witnesses on [demo_model] *)

Lemma session_consumes_input_witness :
  pending (init_world demo_input) + 1 < 12 /\
  ((exists e w, @session demo_model demo_fs 12 demo_input = Exc (Abort e w)) \/
   (exists w, @session demo_model demo_fs 12 demo_input = Ret w /\ all_consumed w)).
Proof.
  assert (Hp : pending (init_world demo_input) + 1 < 12) by (unfold pending; simpl; lia).
  split; [exact Hp | exact (@session_consumes_input demo_model demo_fs 12 demo_input Hp)].
Defined.

Lemma session_model_calls_bound_witness :
  exists w, @session demo_model demo_fs 12 demo_input = Ret w /\
    length (w_model_calls w) <= sum_list_with tclicks demo_input.
Proof.
  eexists. split; [vm_compute; reflexivity|].
  apply (@session_model_calls_bound demo_model demo_fs 12 demo_input). vm_compute. reflexivity.
Defined.

(** A segment with a no-break space and a CR LF line break, as Whisper
    can return for French punctuation or a multi-line segment. *)
Definition nbsp_segment : string :=
  "Merci" +:+ String "160"%char ("!" +:+ String "013"%char (String "010"%char "Au revoir")).

Definition nbsp_model : SpeechModel := fun _ => Ret (mk_result [nbsp_segment]).

Lemma select_transcribe_save_roundtrip_witness :
  (exists w, @session nbsp_model demo_fs 9 (select_transcribe_save "/home/u/fr.mp3" "out.txt") = Ret w /\
    w_files w !! "out.txt" = Some (qt_plain_text (py_lower nbsp_segment)) /\
    label (w_app w) = LblComplete /\ w_model_calls w = ["/home/u/fr.mp3"]) /\
  qt_plain_text (py_lower nbsp_segment) = "merci !" +:+ String "010"%char "au revoir" /\
  qt_plain_text (py_lower nbsp_segment) <> py_lower nbsp_segment.
Proof.
  split; [|split; [vm_compute; reflexivity | vm_compute; discriminate]].
  apply (@select_transcribe_save_roundtrip nbsp_model demo_fs _ _ (mk_result [nbsp_segment]));
    [done | done | reflexivity | vm_compute; reflexivity | vm_compute; discriminate
    | reflexivity | reflexivity | lia].
Defined.

Lemma select_transcribe_save_write_error_witness :
  exists w c u,
    @session demo_model demo_fs 9 (select_transcribe_save "/home/u/ep.mp3" "/mnt/full/t.txt")
      = Exc (Abort (OSError "[Errno 28] No space left on device") w) /\
    w_files w !! "/mnt/full/t.txt" = Some c /\
    qt_plain_text "welcome to the show let's begin" = c +:+ u /\
    c <> qt_plain_text "welcome to the show let's begin".
Proof.
  apply (@select_transcribe_save_write_error demo_model demo_fs _ _ (mk_result spec_scenario) _ 4);
    [done | done | reflexivity | vm_compute; reflexivity | done | reflexivity | reflexivity
    | vm_compute; lia | lia].
Defined.

(** A model that hears only advertisements. *)
Definition ads_model : SpeechModel := fun _ =>
  Ret (mk_result ["Sponsored by Acme"; "Use promo code X"]).

Lemma select_transcribe_save_empty_witness :
  exists w, @session ads_model demo_fs 9
              (select_transcribe_save "/home/u/ads.mp3" "out.txt") = Ret w /\
    label (w_app w) = LblComplete /\ text_area (w_app w) = "" /\
    save_enabled (w_app w) = true /\ w_files w = ∅.
Proof.
  apply (@select_transcribe_save_empty ads_model demo_fs
           _ _ (mk_result ["Sponsored by Acme"; "Use promo code X"]));
    [done | reflexivity | vm_compute; reflexivity | lia].
Defined.

Lemma reselect_during_transcribe_witness :
  exists w, @session demo_model demo_fs 7 (select_transcribe_reselect "/home/u/other.mp3" "/home/u/ep.mp3")
              = Ret w /\
    w_model_calls w = ["/home/u/ep.mp3"] /\ audio_file (w_app w) = Some "/home/u/ep.mp3" /\
    text_area (w_app w) = "welcome to the show let's begin" /\ label (w_app w) = LblComplete.
Proof.
  apply (@reselect_during_transcribe demo_model demo_fs _ _ (mk_result spec_scenario));
    [done | done | reflexivity | vm_compute; reflexivity | lia].
Defined.
