(* ===== verification/Aborts.v ===== *)
(** * Aborts: what a run that ends on an exception leaves behind

    No slot catches an exception: [model.transcribe] (line 87),
    [remove_ads] (line 89), [open] and [write] (lines 111-112) raise out
    of the slot and PyQt6 aborts the application.  The world an aborted
    run leaves ([Abort e w]) is what survives it: the files written so
    far.  [on_abort m R] states [R] of that world; its bind rule needs the
    [partial] invariant of the returned values as well, since the nested
    calls start from them.

    The theorem: in a run that aborts, every file holds a prefix of the
    plain text Qt returns ([qt_plain_text]) for a filtered transcript of
    a model result ([session_abort_files]); a
    failed [write] is the only way to leave a proper prefix, and
    [EndToEnd.select_transcribe_save_write_error] shows that it happens. *)

From Stdlib Require Import Ascii String.
From stdpp Require Import base list strings gmap.
From S2P Require Import Prelude PyStr PyValue RemoveAds AppState Handlers AppProps Scenarios EndToEnd.

Local Open Scope outcome_scope.

(** Every file holds a prefix of the plain text Qt returns for a
    filtered transcript. *)
Definition files_prefix_inv `{SpeechModel} (w : world) : Prop :=
  forall p c, w_files w !! p = Some c ->
    exists t u, transcript_of (w_model_calls w) t /\ qt_plain_text t = c +:+ u.

(** [R] holds of the world an exception leaves. *)
Definition on_abort {A} (m : outcome stop A) (R : world -> Prop) : Prop :=
  match m with
  | Exc (Abort _ w) => R w
  | _ => True
  end.

Lemma on_abort_bind {A B} (m : outcome stop A) (k : A -> outcome stop B) P R :
  on_abort m R -> partial m P -> (forall a, P a -> on_abort (k a) R) -> on_abort (obind m k) R.
Proof. destruct m as [a|[]]; simpl; auto. Qed.

Lemma on_abort_Ret {A} (a : A) R : on_abort (Ret a) R.
Proof. done. Qed.

#[local] Hint Resolve on_abort_Ret : core.

Section AbortInv.
Context `{SpeechModel} `{FileSystem}.

Lemma app_inv_prefix w : app_inv w -> files_prefix_inv w.
Proof.
  intros (_ & _ & _ & Hfiles) p c Hp. destruct (Hfiles p c Hp) as [_ (t & Ht & ->)].
  exists t, "". by rewrite str_app_nil_r.
Qed.

#[local] Hint Resolve app_inv_prefix app_inv_arrive app_inv_log : core.

Lemma model_call_abort w : app_inv w -> on_abort (model_call w) files_prefix_inv.
Proof.
  intros Hinv. unfold model_call.
  destruct (audio_file (w_app w)) as [path|]; simpl; [|auto].
  destruct (whisper_transcribe path); simpl; auto.
Qed.

Lemma show_result_abort r w : app_inv w -> on_abort (show_result r w) files_prefix_inv.
Proof.
  intros Hinv. unfold show_result.
  destruct (transcription_active _); [destruct (remove_ads r)|]; simpl; auto.
Qed.

(** A failed [write] leaves in [p] a prefix of the plain text of the text
    area, which holds a transcript since it is not empty. *)
Lemma saveTranscript_abort p w : app_inv w -> on_abort (saveTranscript p w) files_prefix_inv.
Proof.
  intros Hinv. pose proof (saveTranscript_shape p w) as Hs.
  destruct (saveTranscript p w) as [|[e w'|]]; simpl in *; [done| |done].
  destruct Hs as [-> | (c & u & Ht & Hu & ->)]; [auto|].
  pose proof Hinv as (_ & Htext & _ & Hfiles).
  destruct Htext as [Hempty | Htr]; [by apply toPlainText_nil in Hempty|].
  intros p' c'. simpl. rewrite lookup_insert.
  case_decide; [intros [= <-]; by exists (text_area (w_app w)), u|].
  intros Hp'. destruct (Hfiles p' c' Hp') as [_ (t' & Ht' & ->)].
  exists t', "". by rewrite str_app_nil_r.
Qed.

Section WithPe.
Variable pe : world -> outcome stop world.
Hypothesis pe_inv : forall w, app_inv w -> partial (pe w) app_inv.
Hypothesis pe_abort : forall w, app_inv w -> on_abort (pe w) files_prefix_inv.

Lemma transcribeAudio_abort w : app_inv w -> on_abort (transcribeAudio pe w) files_prefix_inv.
Proof.
  intros Hinv. unfold transcribeAudio.
  destruct (audio_file (w_app w)) as [f|]; [|done]. destruct (String.eqb f ""); [done|].
  assert (Hs : app_inv (start_transcription w)) by by apply app_inv_update.
  eapply on_abort_bind; [by apply pe_abort | by apply pe_inv|]. intros w2 Hw2.
  eapply on_abort_bind; [by apply model_call_abort | by apply model_call_inv|].
  intros [w3 r] [Hw3 _]. simpl in Hw3.
  eapply on_abort_bind; [by apply show_result_abort | apply partial_True|]. auto.
Qed.

Lemma dispatch_abort e w : app_inv w -> on_abort (dispatch pe e w) files_prefix_inv.
Proof.
  intros Hinv. destruct e; simpl; [done| | |].
  - destruct (transcribe_enabled _); [by apply transcribeAudio_abort | done].
  - destruct (cancel_enabled _); [|done]. apply pe_abort. by apply app_inv_update.
  - destruct (save_enabled _); [by apply saveTranscript_abort | done].
Qed.
End WithPe.

Lemma process_events_abort fuel w :
  app_inv w -> on_abort (process_events fuel w) files_prefix_inv.
Proof.
  revert w. induction fuel as [|fuel IH]; intros w Hinv; [done|]. simpl.
  destruct (w_queue w) as [|e q]; [done|].
  assert (Hq : app_inv (w_set_queue q w)) by by apply app_inv_set_queue.
  eapply on_abort_bind; [apply dispatch_abort; [apply process_events_inv | exact IH | exact Hq]
                        | by apply dispatch_inv; [apply process_events_inv|] |].
  exact IH.
Qed.

Lemma exec_abort fuel w : app_inv w -> on_abort (exec fuel w) files_prefix_inv.
Proof.
  revert w. induction fuel as [|fuel IH]; intros w Hinv; [done|]. simpl.
  eapply on_abort_bind; [by apply process_events_abort | by apply process_events_inv|].
  intros w1 Hw1. destruct (w_input w1); [done|]. by apply IH, app_inv_arrive.
Qed.

(** C27: whatever the input and whichever exception ends the run, the
    files the application wrote are prefixes of the plain text
    ([toPlainText]) of filtered transcripts of model results: nothing
    else is ever written, and an interrupted write leaves a prefix. *)
Theorem session_abort_files fuel input e w :
  session fuel input = Exc (Abort e w) -> files_prefix_inv w.
Proof.
  intros Hs. pose proof (exec_abort fuel _ (app_inv_init input)) as Ha.
  unfold session in Hs. by rewrite Hs in Ha.
Qed.
End AbortInv.

Lemma session_abort_files_witness :
  exists w, @session demo_model demo_fs 9 (select_transcribe_save "/home/u/ep.mp3" "/mnt/full/t.txt")
              = Exc (Abort (OSError "[Errno 28] No space left on device") w) /\
    @files_prefix_inv demo_model w.
Proof.
  eexists. split; [vm_compute; reflexivity|].
  eapply (@session_abort_files demo_model demo_fs 9
            (select_transcribe_save "/home/u/ep.mp3" "/mnt/full/t.txt")).
  vm_compute. reflexivity.
Defined.
